(** * Resume parser and HTML renderer of [render_pretty_resume.py]

    A shallow embedding of [parse_markdown], [_li], [_items], [build_html]
    and of the image selection of [main], followed by the properties of the
    parser and of the renderer.

    Text is a [string]; a character is a code point below 256.  Lines are a
    [list string] indexed by a cursor [i : nat]; [lines[i]] is a lookup that
    raises [IndexError] out of range, and every [while] loop runs on fuel. *)

From Stdlib Require Import String Ascii List Bool Arith ZArith Lia Sorted.
Import ListNotations.
Open Scope string_scope.

(* ================================================================== *)
(** * Python string operations *)
(* ================================================================== *)

Module PyStr.

(** Characters removed by [str.strip()] with no argument: the code points
    for which [str.isspace] holds (9-13, 28-32, 133, 160 below 256). *)
Definition is_space (c : ascii) : bool :=
  let n := N_of_ascii c in
  (((9 <=? n) && (n <=? 13)) || ((28 <=? n) && (n <=? 32))
   || (n =? 133) || (n =? 160))%N.

(** Line boundaries of [str.splitlines()]: LF, VT, FF, CR, FS, GS, RS, NEL. *)
Definition is_linebreak (c : ascii) : bool :=
  let n := N_of_ascii c in
  (((10 <=? n) && (n <=? 13)) || ((28 <=? n) && (n <=? 30)) || (n =? 133))%N.

Definition is_empty (s : string) : bool :=
  match s with EmptyString => true | String _ _ => false end.

Fixpoint lstrip_by (p : ascii -> bool) (s : string) : string :=
  match s with
  | EmptyString => EmptyString
  | String c r => if p c then lstrip_by p r else s
  end.

Fixpoint rstrip_by (p : ascii -> bool) (s : string) : string :=
  match s with
  | EmptyString => EmptyString
  | String c r =>
      match rstrip_by p r with
      | EmptyString => if p c then EmptyString else String c EmptyString
      | r' => String c r'
      end
  end.

(** [s.strip()] *)
Definition strip (s : string) : string :=
  rstrip_by is_space (lstrip_by is_space s).

(** [s.strip(chars)] and [s.rstrip(chars)] for a one-character [chars]. *)
Definition strip_char (c : ascii) (s : string) : string :=
  rstrip_by (Ascii.eqb c) (lstrip_by (Ascii.eqb c) s).

Definition rstrip_char (c : ascii) (s : string) : string :=
  rstrip_by (Ascii.eqb c) s.

(** [s.startswith(p)] *)
Fixpoint startswith (s p : string) : bool :=
  match p, s with
  | EmptyString, _ => true
  | String _ _, EmptyString => false
  | String a p', String b s' => Ascii.eqb a b && startswith s' p'
  end.

(** [s[k:]] for [k >= 0]. *)
Fixpoint drop (k : nat) (s : string) : string :=
  match k, s with
  | O, _ => s
  | S _, EmptyString => EmptyString
  | S k', String _ r => drop k' r
  end.

(** The first [k] characters of [s]. *)
Fixpoint take (k : nat) (s : string) : string :=
  match k, s with
  | O, _ => EmptyString
  | S _, EmptyString => EmptyString
  | S k', String c r => String c (take k' r)
  end.

(** [s.endswith(p)] *)
Definition endswith (s p : string) : bool :=
  Nat.leb (String.length p) (String.length s)
  && String.eqb (drop (String.length s - String.length p) s) p.

(** [sub in s] *)
Fixpoint contains (s sub : string) : bool :=
  startswith s sub
  || match s with
     | EmptyString => false
     | String _ r => contains r sub
     end.

(** [s.find(sub)]: the lowest index where [sub] starts, [-1] when absent. *)
Fixpoint find_from (k : Z) (s sub : string) : Z :=
  if startswith s sub then k
  else match s with
       | EmptyString => (-1)%Z
       | String _ r => find_from (k + 1)%Z r sub
       end.

Definition find (s sub : string) : Z := find_from 0%Z s sub.

(** A slice bound as Python normalises it: a negative bound counts from the
    end, and the result is clamped to [0, len]. *)
Definition clamp_index (len : nat) (k : Z) : nat :=
  let k' := if (k <? 0)%Z then (k + Z.of_nat len)%Z else k in
  Nat.min len (Z.to_nat k').

(** [s[lo:hi]] *)
Definition slice (s : string) (lo hi : Z) : string :=
  let n := String.length s in
  let a := clamp_index n lo in
  let b := clamp_index n hi in
  take (b - a) (drop a s).

(** [s.lower()] on code points below 256: A-Z, and the Latin-1 capitals
    192-222 except the multiplication sign 215, move up by 32. *)
Definition lower_char (c : ascii) : ascii :=
  let n := N_of_ascii c in
  if (((65 <=? n) && (n <=? 90))
      || ((192 <=? n) && (n <=? 222) && negb (n =? 215)))%N
  then ascii_of_N (n + 32) else c.

Fixpoint lower (s : string) : string :=
  match s with
  | EmptyString => EmptyString
  | String c r => String (lower_char c) (lower r)
  end.

(** [s.replace("**", "")]: occurrences are removed left to right without
    overlap. *)
Fixpoint remove_bold (s : string) : string :=
  match s with
  | EmptyString => EmptyString
  | String c r =>
      match r with
      | String d r' =>
          if Ascii.eqb c "*" && Ascii.eqb d "*" then remove_bold r'
          else String c (remove_bold r)
      | EmptyString => s
      end
  end.

(** [sep.join(parts)] *)
Definition join (sep : string) (parts : list string) : string :=
  String.concat sep parts.

(** [x in xs] for a list of strings. *)
Definition mem (x : string) (xs : list string) : bool :=
  existsb (String.eqb x) xs.

(** The double quote, for text that holds one. *)
Definition dquote : string := String (ascii_of_nat 34) EmptyString.

(** [html.escape(s)] with the default [quote=True]. *)
Definition escape_char (c : ascii) : string :=
  if Ascii.eqb c "&" then "&amp;"
  else if Ascii.eqb c "<" then "&lt;"
  else if Ascii.eqb c ">" then "&gt;"
  else if Ascii.eqb c (ascii_of_nat 34) then "&quot;"
  else if Ascii.eqb c "'" then "&#x27;"
  else String c EmptyString.

Fixpoint escape (s : string) : string :=
  match s with
  | EmptyString => EmptyString
  | String c r => escape_char c ++ escape r
  end.

(** [s.splitlines()]: [cur] holds the current line reversed; [after_cr]
    says the previous character was a CR, so that a LF right after it
    belongs to the same boundary. *)
Fixpoint rev_string (acc s : string) : string :=
  match s with
  | EmptyString => acc
  | String c r => rev_string (String c acc) r
  end.

Fixpoint splitlines_from (after_cr : bool) (cur : string) (s : string)
  : list string :=
  match s with
  | EmptyString =>
      match cur with
      | EmptyString => []
      | _ => [rev_string EmptyString cur]
      end
  | String c r =>
      if after_cr && Ascii.eqb c (ascii_of_nat 10) then
        splitlines_from false cur r
      else if is_linebreak c then
        rev_string EmptyString cur
          :: splitlines_from (Ascii.eqb c (ascii_of_nat 13)) EmptyString r
      else splitlines_from false (String c cur) r
  end.

Definition splitlines (s : string) : list string :=
  splitlines_from false EmptyString s.

End PyStr.

Import PyStr.

(* ================================================================== *)
(** * Outcomes of a Python computation *)
(* ================================================================== *)

Inductive exn : Type := IndexError.

(** A computation returns a value, raises, or is cut by the fuel of a
    [while] loop. *)
Inductive result (A : Type) : Type :=
| Ok (a : A)
| Raise (e : exn)
| OutOfFuel.

Arguments Ok {A} a.
Arguments Raise {A} e.
Arguments OutOfFuel {A}.

Definition bind {A B : Type} (m : result A) (k : A -> result B) : result B :=
  match m with
  | Ok a => k a
  | Raise e => Raise e
  | OutOfFuel => OutOfFuel
  end.

Notation "x <- m ;; k" := (bind m (fun x => k))
  (at level 61, m at next level, right associativity).
Notation "' p <- m ;; k" := (bind m (fun x => match x with p => k end))
  (at level 61, p pattern, m at next level, right associativity).

(** [lines[i]] for [i >= 0]. *)
Definition getitem (lines : list string) (i : nat) : result string :=
  match nth_error lines i with
  | Some l => Ok l
  | None => Raise IndexError
  end.

(* ================================================================== *)
(** * The resume record *)
(* ================================================================== *)

(** The dict built at line 88. *)
Record Item : Type := mkItem {
  title : string;
  meta : string;
  subtitle : string;
  bullets : list string
}.

(** The dict [data] of [parse_markdown], with its nine keys. *)
Record Data : Type := mkData {
  name : string;
  role : string;
  contacts : list string;
  summary : string;
  skills : list string;
  experience : list Item;
  projects : list Item;
  fit : list string;
  image_from_md : string
}.

Definition empty_data : Data := mkData "" "" [] "" [] [] [] [] "".

Definition set_name (v : string) (d : Data) : Data :=
  mkData v (role d) (contacts d) (summary d) (skills d) (experience d)
         (projects d) (fit d) (image_from_md d).

Definition set_role (v : string) (d : Data) : Data :=
  mkData (name d) v (contacts d) (summary d) (skills d) (experience d)
         (projects d) (fit d) (image_from_md d).

Definition set_summary (v : string) (d : Data) : Data :=
  mkData (name d) (role d) (contacts d) v (skills d) (experience d)
         (projects d) (fit d) (image_from_md d).

Definition set_image_from_md (v : string) (d : Data) : Data :=
  mkData (name d) (role d) (contacts d) (summary d) (skills d) (experience d)
         (projects d) (fit d) v.

Definition append_contacts (v : string) (d : Data) : Data :=
  mkData (name d) (role d) (contacts d ++ [v]) (summary d) (skills d)
         (experience d) (projects d) (fit d) (image_from_md d).

Definition append_skills (v : string) (d : Data) : Data :=
  mkData (name d) (role d) (contacts d) (summary d) (skills d ++ [v])
         (experience d) (projects d) (fit d) (image_from_md d).

Definition append_experience (v : Item) (d : Data) : Data :=
  mkData (name d) (role d) (contacts d) (summary d) (skills d)
         (experience d ++ [v]) (projects d) (fit d) (image_from_md d).

Definition append_projects (v : Item) (d : Data) : Data :=
  mkData (name d) (role d) (contacts d) (summary d) (skills d)
         (experience d) (projects d ++ [v]) (fit d) (image_from_md d).

Definition append_fit (v : string) (d : Data) : Data :=
  mkData (name d) (role d) (contacts d) (summary d) (skills d)
         (experience d) (projects d) (fit d ++ [v]) (image_from_md d).

(* ================================================================== *)
(** * parse_markdown *)
(* ================================================================== *)

(** The test of lines 31 and 45 on a stripped line. *)
Definition is_image_line (s : string) : bool :=
  startswith s "![" && contains s "](" && endswith s ")".

(** Lines 29-33: the first image line gives [image_from_md]. *)
Fixpoint find_image (lines : list string) : string :=
  match lines with
  | [] => ""
  | line :: rest =>
      let s := strip line in
      if is_image_line s then slice s (find s "(" + 1)%Z (-1)%Z
      else find_image rest
  end.

(** Lines 70-71. *)
Fixpoint skip_blank (fuel : nat) (lines : list string) (i : nat)
  : result nat :=
  match fuel with
  | O => OutOfFuel
  | S fuel' =>
      if Nat.ltb i (List.length lines) then
        l <- getitem lines i ;;
        if is_empty (strip l) then skip_blank fuel' lines (i + 1)
        else Ok i
      else Ok i
  end.

(** Lines 72-74. *)
Definition read_meta (lines : list string) (i : nat)
  : result (string * nat) :=
  if Nat.ltb i (List.length lines) then
    l <- getitem lines i ;;
    if startswith (strip l) "**"
    then Ok (strip (remove_bold (strip l)), i + 1)
    else Ok ("", i)
  else Ok ("", i).

(** Lines 75-77. *)
Definition read_subtitle (lines : list string) (i : nat)
  : result (string * nat) :=
  if Nat.ltb i (List.length lines) then
    l <- getitem lines i ;;
    let s := strip l in
    if negb (is_empty s) && negb (startswith s "-")
       && negb (startswith s "## ")
    then Ok (s, i + 1)
    else Ok ("", i)
  else Ok ("", i).

(** Lines 78-87. *)
Fixpoint collect_bullets (fuel : nat) (lines : list string) (i : nat)
  (bullets : list string) : result (list string * nat) :=
  match fuel with
  | O => OutOfFuel
  | S fuel' =>
      if Nat.ltb i (List.length lines) then
        l <- getitem lines i ;;
        let s := strip l in
        if is_empty s then collect_bullets fuel' lines (i + 1) bullets
        else if startswith s "## " || startswith s "### "
        then Ok (bullets, i)
        else
          collect_bullets fuel' lines (i + 1)
            (if startswith s "- " then bullets ++ [strip (drop 2 s)]
             else bullets)
      else Ok (bullets, i)
  end.

(** Lines 65-88: the Item that starts at the [### ] line [line] found at
    index [i], and the index after it. *)
Definition parse_item (fuel : nat) (lines : list string) (i : nat)
  (line : string) : result (Item * nat) :=
  let title := strip (drop 4 line) in
  i1 <- skip_blank fuel lines (i + 1) ;;
  '(meta, i2) <- read_meta lines i1 ;;
  '(subtitle, i3) <- read_subtitle lines i2 ;;
  '(bullets, i4) <- collect_bullets fuel lines i3 [] ;;
  Ok (mkItem title meta subtitle bullets, i4).

(** Lines 99-101. *)
Fixpoint collect_summary (fuel : nat) (lines : list string) (i : nat)
  (parts : list string) : result (list string * nat) :=
  match fuel with
  | O => OutOfFuel
  | S fuel' =>
      if Nat.ltb i (List.length lines) then
        l <- getitem lines i ;;
        let s := strip l in
        if negb (is_empty s) && negb (startswith s "## ")
        then collect_summary fuel' lines (i + 1) (parts ++ [s])
        else Ok (parts, i)
      else Ok (parts, i)
  end.

(** The variables of the main loop: the cursor [i], [current_section] and
    [data]. *)
Record State : Type := mkState {
  cur : nat;
  current_section : string;
  data : Data
}.

(** Lines 89-92. *)
Definition route_item (current_section : string) (item : Item) (d : Data)
  : Data :=
  if contains current_section "project"
     || contains current_section "highlight"
  then append_projects item d
  else append_experience item d.

(** Lines 116-118. *)
Definition add_contact (current_section line : string) (d : Data) : Data :=
  if is_empty current_section && negb (is_empty line)
     && negb (startswith line "#")
  then
    if negb (mem line (contacts d))
    then append_contacts (rstrip_char "\" line) d
    else d
  else d.

(** Lines 39-119: one turn of the main loop, entered with [i < n]. *)
Definition body (fuel : nat) (lines : list string) (st : State)
  : result State :=
  let i := cur st in
  let sec := current_section st in
  let d := data st in
  l <- getitem lines i ;;
  let line := strip l in
  if is_empty line then Ok (mkState (i + 1) sec d)
  else if is_image_line line then Ok (mkState (i + 1) sec d)
  else if startswith line "# " && is_empty (name d) then
    Ok (mkState (i + 1) sec (set_name (strip (drop 2 line)) d))
  else if startswith line "**" && endswith line "**" && is_empty (role d)
  then Ok (mkState (i + 1) sec (set_role (strip (strip_char "*" line)) d))
  else if startswith line "## " then
    Ok (mkState (i + 1) (lower (strip (drop 3 line))) d)
  else if startswith line "### " then
    '(item, i') <- parse_item fuel lines i line ;;
    Ok (mkState i' sec (route_item sec item d))
  else if String.eqb sec "professional summary" then
    '(parts, i') <- collect_summary fuel lines (i + 1) [line] ;;
    Ok (mkState i' sec (set_summary (strip (join " " parts)) d))
  else if String.eqb sec "core skills" && startswith line "- " then
    Ok (mkState (i + 1) sec (append_skills (strip (drop 2 line)) d))
  else if contains sec "role alignment" && startswith line "- " then
    Ok (mkState (i + 1) sec (append_fit (strip (drop 2 line)) d))
  else Ok (mkState (i + 1) sec (add_contact sec line d)).

(** Lines 38-121. *)
Fixpoint main_loop (fuel : nat) (lines : list string) (st : State)
  : result Data :=
  match fuel with
  | O => OutOfFuel
  | S fuel' =>
      if Nat.ltb (cur st) (List.length lines) then
        st' <- body fuel' lines st ;;
        main_loop fuel' lines st'
      else Ok (data st)
  end.

(** Lines 16-37: [data] after the image scan, at the start of the loop. *)
Definition init_state (lines : list string) : State :=
  mkState 0 "" (set_image_from_md (find_image lines) empty_data).

(** The function on the list of lines.  Every turn of a loop moves the
    cursor forward, so [length lines + 1] turns are enough. *)
Definition parse_lines (lines : list string) : result Data :=
  main_loop (S (List.length lines)) lines (init_state lines).

Definition parse_markdown (md_text : string) : result Data :=
  parse_lines (splitlines md_text).

Definition nl : string := String (ascii_of_nat 10) EmptyString.

Definition sample_resume : string :=
  "# Jane Doe" ++ nl ++ "**iOS Engineer**" ++ nl ++ "jane@x.org\" ++ nl
  ++ "+1 555" ++ nl ++ "![me](me.png)" ++ nl ++ nl
  ++ "## Professional Summary" ++ nl ++ "Builds apps." ++ nl
  ++ "Ships them." ++ nl ++ nl
  ++ "## Core Skills" ++ nl ++ "- Swift" ++ nl ++ "- SwiftUI" ++ nl
  ++ "## Experience" ++ nl ++ "### Senior Engineer" ++ nl
  ++ "**Acme Corp | 2020-2023**" ++ nl ++ "Remote" ++ nl
  ++ "- did a" ++ nl ++ "- did b" ++ nl
  ++ "## Project Highlights" ++ nl ++ "### App" ++ nl ++ "- shipped" ++ nl
  ++ "## Role Alignment" ++ nl ++ "- fits".


(* ================================================================== *)
(** * The renderer *)
(* ================================================================== *)

(** The literal text of the f-strings is written below with a backquote
    wherever the source has a double quote; [with_dquotes] puts the double
    quotes back.  The source text has no backquote. *)
Fixpoint with_dquotes (s : string) : string :=
  match s with
  | EmptyString => EmptyString
  | String c r =>
      String (if Ascii.eqb c "`" then ascii_of_nat 34 else c) (with_dquotes r)
  end.

(** Line 125. *)
Definition _li (items : list string) : string :=
  String.concat "" (map (fun x => "<li>" ++ escape x ++ "</li>") items).

(** Lines 132-141: the text of one block, in four pieces around the title,
    the meta, the subtitle paragraph and the bullets. *)
Definition item_open : string := with_dquotes "
            <div class=`item`>
              <div class=`row`>
                <div class=`title`>".

Definition item_meta : string := with_dquotes "</div>
                <div class=`meta`>".

Definition item_sub : string := with_dquotes "</div>
              </div>
              ".

Definition item_points : string := with_dquotes "
              <ul class=`points`>".

Definition item_close : string := with_dquotes "</ul>
            </div>
            ".

Definition item_block (item : Item) : string :=
  item_open ++ escape (title item)
  ++ item_meta ++ escape (meta item)
  ++ item_sub
  ++ (if negb (is_empty (subtitle item))
      then "<p class='sub'>" ++ escape (subtitle item) ++ "</p>"
      else "")
  ++ item_points ++ _li (bullets item)
  ++ item_close.

(** Lines 128-143. *)
Definition _items (items : list Item) : string :=
  join nl (map item_block items).

(** Lines 147-149. *)
Definition fit_boxes (d : Data) : string :=
  String.concat ""
    (map (fun point => "<div class='fit'><strong>Fit</strong>"
                       ++ escape point ++ "</div>")
         (firstn 4 (fit d))).

(** Line 150. *)
Definition headline_right (target_label : string) : string :=
  if negb (is_empty target_label)
  then "<p class='target'>" ++ escape target_label ++ "</p>"
  else "".

(** Line 204. *)
Definition contact_list (d : Data) : string :=
  String.concat ""
    (map (fun c => "<p>" ++ escape c ++ "</p>") (firstn 4 (contacts d))).

(** Lines 152-220: the literal text between the interpolations. *)

(** The document up to the opening of [<title>]. *)
Definition tpl_head : string := with_dquotes "<!doctype html>
<html lang=`en`>
<head>
  <meta charset=`utf-8` />
  <meta name=`viewport` content=`width=device-width, initial-scale=1` />
  <title>".

(** From the end of the title, through the style sheet, to the [src] of the photo. *)
Definition tpl_style : string := with_dquotes " - Resume</title>
  <style>
    @page { size: A4; margin: 0; }
    :root {
      --ink: #132033; --muted: #5a6a7d; --line: #d8e0ea; --panel: #edf3fb;
      --accent: #0f4c81;
    }
    * { box-sizing: border-box; }
    body { margin: 0; font-family: `Avenir Next`, `Segoe UI`, `Trebuchet MS`, sans-serif; color: var(--ink); }
    .page { width: 210mm; min-height: 297mm; display: grid; grid-template-columns: 68mm 1fr; }
    .left { background: linear-gradient(180deg, #0f4c81 0%, #0e3e67 55%, #102f4d 100%); color: #f6f9fd; padding: 14mm 8mm 12mm; }
    .right { padding: 13mm 12mm 12mm; }
    .photo { width: 36mm; height: 36mm; margin: 0 auto 6mm; border-radius: 50%; overflow: hidden; border: 2.5mm solid rgba(255,255,255,0.25); background: #fff; }
    .photo img { width: 100%; height: 100%; object-fit: cover; display: block; }
    .name { text-align: center; margin: 0; font-size: 20px; line-height: 1.15; font-weight: 700; }
    .role { text-align: center; margin: 2.5mm 0 8mm; font-size: 10.5px; line-height: 1.35; color: #dce8f6; font-weight: 600; }
    .left h3 { margin: 8mm 0 3mm; font-size: 10px; text-transform: uppercase; letter-spacing: 1px; color: #b9d7f3; border-top: 0.3mm solid rgba(255,255,255,0.2); padding-top: 2.3mm; }
    .left p, .left li, .left a { font-size: 9.2px; line-height: 1.45; margin: 0; color: #f2f7fc; text-decoration: none; word-break: break-word; }
    .contact-list { display: grid; gap: 2.2mm; }
    .left ul { margin: 1mm 0 0; padding-left: 3.8mm; }
    .skills-list { margin-top: 1.6mm; display: grid; gap: 1.6mm; }
    .skills-list li { font-size: 8.8px; line-height: 1.25; }
    .headline { display: flex; justify-content: space-between; align-items: baseline; gap: 5mm; margin-bottom: 4mm; }
    .headline h1 { margin: 0; font-size: 25px; line-height: 1.05; color: var(--accent); }
    .headline .target { margin: 0; font-size: 10px; color: var(--muted); text-align: right; font-weight: 600; }
    .summary { background: var(--panel); border-left: 1.2mm solid var(--accent); border-radius: 1.2mm; padding: 3.3mm 3.6mm; font-size: 10.2px; line-height: 1.5; margin-bottom: 5.4mm; }
    .section { margin-bottom: 5.2mm; }
    .section h2 { margin: 0 0 2.8mm; font-size: 11px; text-transform: uppercase; letter-spacing: 1px; color: var(--accent); border-bottom: 0.35mm solid var(--line); padding-bottom: 1.5mm; }
    .item { margin-bottom: 3.1mm; }
    .row { display: flex; justify-content: space-between; align-items: baseline; gap: 4mm; }
    .row .title { font-size: 11px; font-weight: 700; color: #10253a; }
    .row .meta { font-size: 9px; color: var(--muted); white-space: nowrap; font-weight: 600; }
    .sub { margin-top: 0.7mm; font-size: 9.6px; color: #30435a; font-weight: 600; }
    ul.points { margin: 1.4mm 0 0; padding-left: 4.3mm; }
    ul.points li { font-size: 9.5px; line-height: 1.45; margin-bottom: 1.2mm; }
    .fit-box { display: grid; grid-template-columns: 1fr 1fr; gap: 2.2mm; }
    .fit { background: #f8fbff; border: 0.3mm solid var(--line); border-radius: 1.2mm; padding: 2.4mm 2.8mm; font-size: 9.2px; line-height: 1.4; }
    .fit strong { display: block; color: var(--accent); margin-bottom: 0.7mm; font-size: 9.3px; text-transform: uppercase; letter-spacing: 0.4px; }
  </style>
</head>
<body>
  <main class=`page`>
    <aside class=`left`>
      <div class=`photo`><img src=`".

(** Between the [src] and the [alt] of the photo. *)
Definition tpl_img_alt : string := with_dquotes "` alt=`".

(** Up to the name in the sidebar. *)
Definition tpl_name : string := with_dquotes "` /></div>
      <h2 class=`name`>".

(** Up to the role. *)
Definition tpl_role : string := with_dquotes "</h2>
      <p class=`role`>".

(** Up to the contact list. *)
Definition tpl_contacts : string := with_dquotes "</p>
      <h3>Contact</h3>
      <div class=`contact-list`>".

(** Up to the skills list. *)
Definition tpl_skills : string := with_dquotes "</div>
      <h3>Core Skills</h3>
      <ul class=`skills-list`>".

(** From the end of the skills list to the headline, with its fixed [h1]. *)
Definition tpl_headline : string := with_dquotes "</ul>
    </aside>
    <section class=`right`>
      <div class=`headline`>
        <h1>iOS Engineer Resume</h1>
        ".

(** Up to the summary box. *)
Definition tpl_summary : string := with_dquotes "
      </div>
      <div class=`summary`>".

(** Up to the experience section. *)
Definition tpl_experience : string := with_dquotes "</div>
      <div class=`section`><h2>Professional Experience</h2>".

(** Up to the projects section. *)
Definition tpl_projects : string := with_dquotes "</div>
      <div class=`section`><h2>Selected Project Highlights</h2>".

(** Up to the fit boxes. *)
Definition tpl_fit : string := with_dquotes "</div>
      <div class=`section`><h2>Role Fit</h2><div class=`fit-box`>".

(** The closing tags. *)
Definition tpl_tail : string := with_dquotes "</div></div>
    </section>
  </main>
</body>
</html>".

(** Lines 146-220.  Every key of [data] is present in a [Data], so the
    defaults of [data.get] are never taken. *)
Definition build_html (d : Data) (profile_image target_label : string)
  : string :=
  tpl_head ++ escape (name d)
  ++ tpl_style ++ escape profile_image
  ++ tpl_img_alt ++ escape (name d)
  ++ tpl_name ++ escape (name d)
  ++ tpl_role ++ escape (role d)
  ++ tpl_contacts ++ contact_list d
  ++ tpl_skills ++ _li (firstn 12 (skills d))
  ++ tpl_headline ++ headline_right target_label
  ++ tpl_summary ++ escape (summary d)
  ++ tpl_experience ++ _items (experience d)
  ++ tpl_projects ++ _items (projects d)
  ++ tpl_fit ++ fit_boxes d
  ++ tpl_tail.

(** Line 257. *)
Definition placeholder_image : string :=
  "https://dummyimage.com/400x400/e6eef7/7f8fa3.jpg&text=Profile".

(** [a or b] on strings. *)
Definition or_else (a b : string) : string :=
  if is_empty a then b else a.

(** Lines 255-257; [arg] is [args.profile_image], [None] when the option is
    not given. *)
Definition choose_profile_image (arg : option string) (parsed : Data)
  : string :=
  let profile_image :=
    or_else (match arg with
             | Some a => or_else a (image_from_md parsed)
             | None => image_from_md parsed
             end) "" in
  if is_empty profile_image then placeholder_image else profile_image.

(** Lines 252-259: the HTML text [main] writes for the text of the input
    file and the two options. *)
Definition main_html (md_text : string) (profile_image_arg : option string)
  (target_label : string) : result string :=
  parsed <- parse_markdown md_text ;;
  Ok (build_html parsed (choose_profile_image profile_image_arg parsed)
        target_label).


(* ================================================================== *)
(** * Vocabulary of the properties *)
(* ================================================================== *)

(** A line that is empty once stripped. *)
Definition blank (l : string) : bool := is_empty (strip l).

(** A [## ] line, a [### ] line and a [# ] line. *)
Definition section_heading (l : string) : bool := startswith (strip l) "## ".
Definition item_heading (l : string) : bool := startswith (strip l) "### ".
Definition name_heading (l : string) : bool := startswith (strip l) "# ".

(** A stripped line wrapped in bold markers. *)
Definition bold_only (s : string) : bool :=
  startswith s "**" && endswith s "**".

(** The value a [## ] line gives to [current_section]. *)
Definition section_name (l : string) : string :=
  lower (strip (drop 3 (strip l))).



Fixpoint take_while (p : string -> bool) (ls : list string) : list string :=
  match ls with
  | [] => []
  | l :: r => if p l then l :: take_while p r else []
  end.

Fixpoint drop_while (p : string -> bool) (ls : list string) : list string :=
  match ls with
  | [] => []
  | l :: r => if p l then drop_while p r else ls
  end.

(** The lines [seg] between the indices [i] and [j] of [lines]. *)
Definition span (lines : list string) (i j : nat) (seg : list string)
  : Prop :=
  skipn i lines = (seg ++ skipn j lines)%list
  /\ j = i + List.length seg /\ j <= List.length lines.

(** The bullets of a run of lines: the text of its [- ] lines. *)
Definition bullets_of (seg : list string) : list string :=
  map (fun s => strip (drop 2 s))
      (filter (fun s => startswith s "- ") (map strip seg)).

(** One turn of the main loop as a relation, a rule for each branch of
    lines 40-119 under the tests that lead to it. *)
Inductive step (lines : list string) : State -> State -> Prop :=
| step_blank i sec d l :
    nth_error lines i = Some l ->
    is_empty (strip l) = true ->
    step lines (mkState i sec d) (mkState (i + 1) sec d)
| step_image i sec d l :
    nth_error lines i = Some l ->
    is_empty (strip l) = false ->
    is_image_line (strip l) = true ->
    step lines (mkState i sec d) (mkState (i + 1) sec d)
| step_name i sec d l :
    nth_error lines i = Some l ->
    is_empty (strip l) = false ->
    is_image_line (strip l) = false ->
    startswith (strip l) "# " = true ->
    is_empty (name d) = true ->
    step lines (mkState i sec d)
         (mkState (i + 1) sec (set_name (strip (drop 2 (strip l))) d))
| step_role i sec d l :
    nth_error lines i = Some l ->
    is_empty (strip l) = false ->
    is_image_line (strip l) = false ->
    startswith (strip l) "# " && is_empty (name d) = false ->
    bold_only (strip l) = true ->
    is_empty (role d) = true ->
    step lines (mkState i sec d)
         (mkState (i + 1) sec
                  (set_role (strip (strip_char "*" (strip l))) d))
| step_section i sec d l :
    nth_error lines i = Some l ->
    is_empty (strip l) = false ->
    startswith (strip l) "## " = true ->
    step lines (mkState i sec d) (mkState (i + 1) (section_name l) d)
| step_item i sec d l fuel item i' :
    nth_error lines i = Some l ->
    is_empty (strip l) = false ->
    startswith (strip l) "## " = false ->
    startswith (strip l) "### " = true ->
    parse_item fuel lines i (strip l) = Ok (item, i') ->
    step lines (mkState i sec d) (mkState i' sec (route_item sec item d))
| step_summary i sec d l fuel parts i' :
    nth_error lines i = Some l ->
    is_empty (strip l) = false ->
    is_image_line (strip l) = false ->
    startswith (strip l) "# " && is_empty (name d) = false ->
    bold_only (strip l) && is_empty (role d) = false ->
    startswith (strip l) "## " = false ->
    startswith (strip l) "### " = false ->
    sec = "professional summary" ->
    collect_summary fuel lines (i + 1) [strip l] = Ok (parts, i') ->
    step lines (mkState i sec d)
         (mkState i' sec (set_summary (strip (join " " parts)) d))
| step_skill i sec d l :
    nth_error lines i = Some l ->
    is_empty (strip l) = false ->
    startswith (strip l) "## " = false ->
    startswith (strip l) "### " = false ->
    sec = "core skills" ->
    startswith (strip l) "- " = true ->
    step lines (mkState i sec d)
         (mkState (i + 1) sec (append_skills (strip (drop 2 (strip l))) d))
| step_fit i sec d l :
    nth_error lines i = Some l ->
    is_empty (strip l) = false ->
    startswith (strip l) "## " = false ->
    startswith (strip l) "### " = false ->
    sec <> "professional summary" ->
    contains sec "role alignment" = true ->
    startswith (strip l) "- " = true ->
    step lines (mkState i sec d)
         (mkState (i + 1) sec (append_fit (strip (drop 2 (strip l))) d))
| step_contact i sec d l :
    nth_error lines i = Some l ->
    is_empty (strip l) = false ->
    is_image_line (strip l) = false ->
    startswith (strip l) "# " && is_empty (name d) = false ->
    bold_only (strip l) && is_empty (role d) = false ->
    startswith (strip l) "## " = false ->
    startswith (strip l) "### " = false ->
    sec <> "professional summary" ->
    String.eqb sec "core skills" && startswith (strip l) "- " = false ->
    contains sec "role alignment" && startswith (strip l) "- " = false ->
    step lines (mkState i sec d)
         (mkState (i + 1) sec (add_contact sec (strip l) d)).

(** Turns of the main loop, one after the other. *)
Inductive steps (lines : list string) : State -> State -> Prop :=
| steps_refl st : steps lines st st
| steps_cons st st' st'' :
    step lines st st' -> steps lines st' st'' -> steps lines st st''.

(** The parts of an Item, read off the lines [ls] that follow its heading
    once the blank lines are dropped. *)
Definition not_heading23 (l : string) : bool :=
  negb (section_heading l || item_heading l).

Definition has_meta (ls : list string) : bool :=
  match ls with
  | m :: _ => startswith (strip m) "**"
  | [] => false
  end.

Definition after_meta (ls : list string) : list string :=
  if has_meta ls then tl ls else ls.

Definition has_subtitle (ls : list string) : bool :=
  match ls with
  | s :: _ =>
      negb (blank s) && negb (startswith (strip s) "-")
      && negb (section_heading s)
  | [] => false
  end.

Definition after_subtitle (ls : list string) : list string :=
  if has_subtitle ls then tl ls else ls.

(** A line of a summary run after its first line. *)
Definition summary_line (l : string) : bool :=
  negb (blank l) && negb (section_heading l).

(** The Item that a heading line [line] and the lines [rest] after it
    describe, and the lines of [rest] that belong to it. *)
Definition item_of (line : string) (rest : list string) : Item :=
  let b := drop_while blank rest in
  let c := after_meta b in
  let e := after_subtitle c in
  mkItem (strip (drop 4 line))
         (if has_meta b then strip (remove_bold (strip (hd "" b))) else "")
         (if has_subtitle c then strip (hd "" c) else "")
         (bullets_of (take_while not_heading23 e)).

Definition item_consumed (rest : list string) : list string :=
  let b := drop_while blank rest in
  let c := after_meta b in
  let e := after_subtitle c in
  (take_while blank rest
   ++ (if has_meta b then firstn 1 b else [])
   ++ (if has_subtitle c then firstn 1 c else [])
   ++ take_while not_heading23 e)%list.

(** Every character of [s] satisfies [p]. *)
Fixpoint all_chars (p : ascii -> bool) (s : string) : bool :=
  match s with
  | EmptyString => true
  | String c r => p c && all_chars p r
  end.


(* ================================================================== *)
(** * The properties as the specification words them *)
(* ================================================================== *)

(** The name as the specification words it: the trimmed remainder of the
    first [# ] line of the document, empty when there is none. *)
Definition claimed_name (lines : list string) : string :=
  match List.find name_heading lines with
  | Some h => strip (drop 2 (strip h))
  | None => ""
  end.

(** The nearest [## ] or [### ] line of [pre], read from its end. *)
Fixpoint nearest_heading (pre : list string) : option string :=
  match pre with
  | [] => None
  | l :: r =>
      match nearest_heading r with
      | Some s => Some s
      | None => if not_heading23 l then None else Some l
      end
  end.

(** The lines [pre] leave the line after them to the main loop: the
    nearest [## ] or [### ] line of [pre], if there is one, is a [## ]
    line, and when that line opens the professional summary, the last line
    of [pre] is that heading or a blank line. *)
Definition leaves_next_line (pre : list string) : Prop :=
  match nearest_heading pre with
  | None => True
  | Some s =>
      section_heading s = true
      /\ (section_name s = "professional summary" ->
          section_heading (last pre "") = true
          \/ blank (last pre "") = true)
  end.

(** The Item as the specification words it: [meta] only from a bold-only
    line, [subtitle] from a line that is neither blank, nor a bullet, nor a
    heading of any level, bullets up to any heading. *)
Definition any_heading (l : string) : bool :=
  name_heading l || section_heading l || item_heading l.

Definition claimed_has_meta (ls : list string) : bool :=
  match ls with
  | m :: _ => bold_only (strip m)
  | [] => false
  end.

Definition claimed_has_subtitle (ls : list string) : bool :=
  match ls with
  | s :: _ =>
      negb (blank s) && negb (startswith (strip s) "- ")
      && negb (any_heading s)
  | [] => false
  end.

Definition claimed_item (line : string) (rest : list string) : Item :=
  let b := drop_while blank rest in
  let c := if claimed_has_meta b then tl b else b in
  let e := if claimed_has_subtitle c then tl c else c in
  mkItem (strip (drop 4 line))
         (if claimed_has_meta b
          then strip (remove_bold (strip (hd "" b))) else "")
         (if claimed_has_subtitle c then strip (hd "" c) else "")
         (bullets_of (take_while (fun l => negb (any_heading l)) e)).

(* ================================================================== *)
(** * Vocabulary of the renderer's properties *)
(* ================================================================== *)

(** [p] occurs in [s]. *)
Definition infix (p s : string) : Prop :=
  exists a b : string, s = a ++ p ++ b.

(** The number of positions of [s] where [p] starts. *)
Fixpoint count_sub (s p : string) : nat :=
  (if startswith s p then 1 else 0)
  + match s with
    | EmptyString => 0
    | String _ r => count_sub r p
    end.

(** No end of [a] shorter than [p] begins [p]: an occurrence of [p] in
    [a ++ b] lies in [a] or in [b]. *)
Definition no_partial (p a : string) : Prop :=
  forall x y : string,
    a = x ++ y -> y <> "" -> String.length y < String.length p ->
    startswith p y = false.

Fixpoint no_partial_b (p a : string) : bool :=
  match a with
  | EmptyString => true
  | String _ a' =>
      (if Nat.ltb (String.length a) (String.length p)
       then negb (startswith p a) else true)
      && no_partial_b p a'
  end.

(** [a] holds no occurrence of [p] and no beginning of one at its end. *)
Definition clean (p a : string) : Prop :=
  count_sub a p = 0 /\ no_partial p a.

Definition clean_b (p a : string) : bool :=
  Nat.eqb (count_sub a p) 0 && no_partial_b p a.

(** A character other than the ones [html.escape] replaces by [&lt;],
    [&gt;], [&quot;] and [&#x27;]. *)
Definition not_markup (c : ascii) : bool :=
  negb (Ascii.eqb c "<") && negb (Ascii.eqb c ">")
  && negb (Ascii.eqb c (ascii_of_nat 34)) && negb (Ascii.eqb c "'").

(** The literal text of the lists and of the blocks, and the literal text
    of the document between its interpolations. *)
Definition block_pieces : list string :=
  ["<li>"; "</li>"; "<p>"; "</p>"; item_open; item_meta; item_sub;
   "<p class='sub'>"; item_points; item_close; nl;
   "<div class='fit'><strong>Fit</strong>"; "</div>";
   "<p class='target'>"]%list.

Definition document_pieces : list string :=
  [tpl_head; tpl_style; tpl_img_alt; tpl_name; tpl_role; tpl_contacts;
   tpl_skills; tpl_headline; tpl_summary; tpl_experience; tpl_projects;
   tpl_fit; tpl_tail]%list.

(** The opening of the main column with its [h1] element, lines 208-212. *)
Definition main_headline : string := with_dquotes "<section class=`right`>
      <div class=`headline`>
        <h1>iOS Engineer Resume</h1>".

(** The opening of the photo element up to the value of its [src]
    attribute, line 200. *)
Definition photo_src_open : string :=
  with_dquotes "<div class=`photo`><img src=`".

(** The index after the lines of the Item whose heading is at index [j]. *)
Definition item_end (lines : list string) (j : nat) : nat :=
  j + 1 + List.length (item_consumed (skipn (j + 1) lines)).


(** The stripped lines of [pre] that come to the contact rule of lines
    116-119 and pass its tests: not blank, not an image line, not read as
    the role, not beginning with [#].  [role_unset] says that the role is
    still empty; [role_pending] gives its value after [pre]. *)
Fixpoint contact_lines (role_unset : bool) (pre : list string)
  : list string :=
  match pre with
  | nil => nil
  | l :: r =>
      let s := strip l in
      if is_empty s || is_image_line s then contact_lines role_unset r
      else if bold_only s && role_unset
      then contact_lines (is_empty (strip (strip_char "*" s))) r
      else if startswith s "#" then contact_lines role_unset r
      else s :: contact_lines role_unset r
  end.

Fixpoint role_pending (role_unset : bool) (pre : list string) : bool :=
  match pre with
  | nil => role_unset
  | l :: r =>
      let s := strip l in
      if is_empty s || is_image_line s then role_pending role_unset r
      else if bold_only s && role_unset
      then role_pending (is_empty (strip (strip_char "*" s))) r
      else role_pending role_unset r
  end.

(** Lines 117-118 for one line [s]: the membership test reads the line as
    it is, the entry is the line without its trailing backslashes. *)
Definition add_entry (acc : list string) (s : string) : list string :=
  if mem s acc then acc else (acc ++ [rstrip_char "\" s])%list.

(** The entries of a list, each at its first place. *)
Definition first_occurrences (l : list string) : list string :=
  fold_left (fun acc e => if mem e acc then acc else (acc ++ [e])%list)
            l nil.

(** No line with a trailing backslash gives an entry that an earlier line
    gave. *)
Definition backslash_lines_fresh (cands : list string) : Prop :=
  forall a s b,
    cands = (a ++ s :: b)%list ->
    rstrip_char "\" s <> s ->
    ~ In (rstrip_char "\" s) (map (rstrip_char "\") a).

(** The contacts as the specification words them: the non-empty lines
    that are no headings, before the first [## ] line, each with one
    trailing backslash removed, each at its first place. *)
Definition drop_last_backslash (s : string) : string :=
  if endswith s "\" then take (String.length s - 1) s else s.

Definition claimed_contacts (lines : list string) : list string :=
  first_occurrences
    (map (fun l => drop_last_backslash (strip l))
       (filter (fun l => negb (blank l) && negb (any_heading l))
          (take_while (fun l => negb (section_heading l)) lines))).




(** [p] occurs [n] times in [a], and no end of [a] begins [p]. *)
Definition occurs (p a : string) (n : nat) : Prop :=
  count_sub a p = n /\ no_partial p a.

(** The number of times a text [p] occurs in the literal text of the
    document: of a value between [a] and [b], of the block of an Item, of
    the whole document. *)
Definition wrapped_count (p a b : string) : nat :=
  count_sub a p + count_sub b p.

Definition block_count (p : string) (item : Item) : nat :=
  count_sub item_open p + count_sub item_meta p + count_sub item_sub p
  + (if is_empty (subtitle item) then 0
     else wrapped_count p "<p class='sub'>" "</p>")
  + count_sub item_points p
  + wrapped_count p "<li>" "</li>" * List.length (bullets item)
  + count_sub item_close p.

Definition document_count (p : string) (d : Data) (target_label : string)
  : nat :=
  list_sum (map (fun c => count_sub c p) document_pieces)
  + wrapped_count p "<p>" "</p>" * List.length (firstn 4 (contacts d))
  + wrapped_count p "<li>" "</li>" * List.length (firstn 12 (skills d))
  + (if is_empty target_label then 0
     else wrapped_count p "<p class='target'>" "</p>")
  + list_sum (map (block_count p) (experience d))
  + list_sum (map (block_count p) (projects d))
  + wrapped_count p "<div class='fit'><strong>Fit</strong>" "</div>"
    * List.length (firstn 4 (fit d)).

(* ================================================================== *)
(** * Lists of lines *)
(* ================================================================== *)

Arguments startswith : simpl never.
Arguments endswith : simpl never.
Arguments contains : simpl never.
Arguments strip : simpl never.
Arguments strip_char : simpl never.
Arguments rstrip_char : simpl never.
Arguments remove_bold : simpl never.
Arguments lower : simpl never.
Arguments drop : simpl never.
Arguments is_image_line : simpl never.
Arguments join : simpl never.
Arguments escape : simpl never.

Local Open Scope list_scope.

Lemma is_empty_true (s : string) : is_empty s = true <-> s = "".
Proof. destruct s; simpl; split; congruence. Qed.

Lemma is_empty_false (s : string) : is_empty s = false <-> s <> "".
Proof. destruct s; simpl; split; congruence. Qed.

Lemma nth_error_skipn_cons {A : Type} (l : list A) (i : nat) (x : A) :
  nth_error l i = Some x -> skipn i l = x :: skipn (S i) l.
Proof.
  revert i; induction l as [|a l IH]; intros [|i] H; simpl in *;
    try discriminate.
  - congruence.
  - rewrite (IH i H). reflexivity.
Qed.

Lemma lt_nth_error {A : Type} (l : list A) (i : nat) :
  i < List.length l -> exists x, nth_error l i = Some x.
Proof.
  intros H. destruct (nth_error l i) eqn:E; eauto.
  apply nth_error_None in E. lia.
Qed.

Lemma skipn_S_tl {A : Type} (l : list A) (i : nat) :
  skipn (S i) l = tl (skipn i l).
Proof.
  revert i; induction l as [|a l IH]; intros [|i]; simpl; auto.
  rewrite <- IH. reflexivity.
Qed.

Lemma getitem_Ok (lines : list string) (i : nat) (l : string) :
  getitem lines i = Ok l <-> nth_error lines i = Some l.
Proof.
  unfold getitem. destruct (nth_error lines i); split; congruence.
Qed.

Lemma take_drop_while (p : string -> bool) (ls : list string) :
  take_while p ls ++ drop_while p ls = ls.
Proof.
  induction ls as [|l r IH]; simpl; auto.
  destruct (p l); simpl; congruence.
Qed.

Lemma take_while_Forall (p : string -> bool) (ls : list string) :
  Forall (fun l => p l = true) (take_while p ls).
Proof.
  induction ls as [|l r IH]; simpl; auto.
  destruct (p l) eqn:E; auto.
Qed.

Lemma drop_while_head (p : string -> bool) (ls : list string) l r :
  drop_while p ls = l :: r -> p l = false.
Proof.
  induction ls as [|a ls IH]; simpl; try discriminate.
  destruct (p a) eqn:E; auto. intros H; inversion H; subst; auto.
Qed.


Lemma skipn_take_while (p : string -> bool) (ls : list string) :
  skipn (List.length (take_while p ls)) ls = drop_while p ls.
Proof.
  induction ls as [|l r IH]; simpl; auto.
  destruct (p l); simpl; auto.
Qed.

(** ** Spans *)

Lemma span_nil (lines : list string) (i : nat) :
  i <= List.length lines -> span lines i i [].
Proof. intros H; split; [reflexivity | split; [simpl; lia | exact H]]. Qed.

Lemma span_prefix (lines : list string) (i : nat) (seg rest : list string) :
  skipn i lines = seg ++ rest ->
  i <= List.length lines ->
  span lines i (i + List.length seg) seg.
Proof.
  intros H Hi.
  assert (Hlen : List.length (skipn i lines) = List.length lines - i)
    by apply length_skipn.
  rewrite H, length_app in Hlen.
  split; [|split; [reflexivity | lia]].
  rewrite H. f_equal.
  rewrite Nat.add_comm, <- skipn_skipn, H.
  rewrite skipn_app, Nat.sub_diag, skipn_all. reflexivity.
Qed.

Lemma span_one (lines : list string) (i : nat) (l : string) :
  nth_error lines i = Some l -> span lines i (i + 1) [l].
Proof.
  intros H.
  assert (Hi : i < List.length lines)
    by (apply nth_error_Some; congruence).
  apply (span_prefix lines i [l] (skipn (S i) lines)).
  - apply nth_error_skipn_cons, H.
  - lia.
Qed.

Lemma span_app (lines : list string) (i j k : nat) (s1 s2 : list string) :
  span lines i j s1 -> span lines j k s2 -> span lines i k (s1 ++ s2).
Proof.
  intros (H1 & E1 & L1) (H2 & E2 & L2).
  split; [|split; [rewrite length_app; lia | exact L2]].
  rewrite H1, H2, app_assoc. reflexivity.
Qed.

Lemma span_take_while (lines : list string) (i : nat) (p : string -> bool) :
  i <= List.length lines ->
  span lines i (i + List.length (take_while p (skipn i lines)))
       (take_while p (skipn i lines)).
Proof.
  intros Hi.
  apply (span_prefix lines i _ (drop_while p (skipn i lines))); auto.
  symmetry; apply take_drop_while.
Qed.

Lemma span_firstn (lines : list string) (i j : nat) (seg : list string) :
  span lines i j seg -> firstn j lines = firstn i lines ++ seg.
Proof.
  intros (H & E & L).
  assert (Hl : lines = firstn i lines ++ seg ++ skipn j lines).
  { rewrite <- H. symmetry; apply firstn_skipn. }
  rewrite Hl at 1.
  assert (Hi : List.length (firstn i lines) = i)
    by (apply firstn_length_le; lia).
  rewrite app_assoc.
  rewrite firstn_app.
  replace (j - List.length (firstn i lines ++ seg)) with 0
    by (rewrite length_app; lia).
  simpl. rewrite app_nil_r.
  apply firstn_all2. rewrite length_app. lia.
Qed.

Lemma span_nth (lines : list string) (i j k : nat) (seg : list string) :
  span lines i j seg -> i <= k -> k < j ->
  nth_error lines k = nth_error seg (k - i).
Proof.
  intros (H & E & L) Hik Hkj.
  replace k with (i + (k - i)) at 1 by lia.
  rewrite <- nth_error_skipn, H.
  apply nth_error_app1. lia.
Qed.

Lemma span_skipn (lines : list string) (i j : nat) (seg : list string) :
  span lines i j seg -> skipn i lines = seg ++ skipn j lines.
Proof. intros (H & _); exact H. Qed.

Lemma span_le (lines : list string) (i j : nat) (seg : list string) :
  span lines i j seg -> i <= j /\ j <= List.length lines.
Proof. intros (_ & E & L); lia. Qed.

(* ================================================================== *)
(** * The inner loops *)
(* ================================================================== *)

(** Each loop either returns what the lines after the cursor determine, or
    is cut by a fuel no larger than the number of lines left. *)

Arguments skipn : simpl never.
Arguments firstn : simpl never.

Lemma skip_blank_cases (lines : list string) (fuel i : nat) :
  skip_blank fuel lines i
  = Ok (i + List.length (take_while blank (skipn i lines)))
  \/ (skip_blank fuel lines i = OutOfFuel
      /\ fuel <= List.length lines - i).
Proof.
  revert i; induction fuel as [|fuel IH]; intros i; simpl.
  - right; split; [reflexivity | lia].
  - destruct (Nat.ltb_spec i (List.length lines)) as [Hi | Hi].
    + destruct (lt_nth_error lines i Hi) as [l Hl].
      unfold getitem; rewrite Hl; simpl.
      rewrite (nth_error_skipn_cons _ _ _ Hl); simpl.
      unfold blank at 1.
      destruct (is_empty (strip l)) eqn:E.
      * destruct (IH (i + 1)) as [H | [H Hf]].
        -- left. rewrite H. replace (i + 1) with (S i) by lia.
           simpl. f_equal. lia.
        -- right. split; [exact H | lia].
      * left. simpl. f_equal. lia.
    + left. rewrite skipn_all2 by lia. simpl. f_equal. lia.
Qed.

Lemma bullets_of_cons (l : string) (seg : list string) :
  bullets_of (l :: seg)
  = (if startswith (strip l) "- " then [strip (drop 2 (strip l))] else [])
    ++ bullets_of seg.
Proof.
  unfold bullets_of; simpl.
  destruct (startswith (strip l) "- "); reflexivity.
Qed.

Lemma startswith_empty_l (p : string) :
  p <> "" -> startswith "" p = false.
Proof. destruct p; [congruence | reflexivity]. Qed.

Lemma collect_bullets_cases (lines : list string) (fuel i : nat)
  (acc : list string) :
  let seg := take_while not_heading23 (skipn i lines) in
  collect_bullets fuel lines i acc
  = Ok (acc ++ bullets_of seg, i + List.length seg)
  \/ (collect_bullets fuel lines i acc = OutOfFuel
      /\ fuel <= List.length lines - i).
Proof.
  revert i acc; induction fuel as [|fuel IH]; intros i acc; simpl.
  - right; split; [reflexivity | lia].
  - destruct (Nat.ltb_spec i (List.length lines)) as [Hi | Hi].
    + destruct (lt_nth_error lines i Hi) as [l Hl].
      unfold getitem; rewrite Hl; simpl.
      rewrite (nth_error_skipn_cons _ _ _ Hl); simpl.
      unfold not_heading23 at 1 3, section_heading, item_heading.
      destruct (is_empty (strip l)) eqn:E.
      * apply is_empty_true in E. rewrite E.
        change (startswith "" "## ") with false.
        change (startswith "" "### ") with false. simpl.
        rewrite bullets_of_cons, E.
        change (startswith "" "- ") with false. simpl.
        destruct (IH (i + 1) acc) as [H | [H Hf]].
        -- left. rewrite H. replace (i + 1) with (S i) by lia.
           f_equal. f_equal. lia.
        -- right. split; [exact H | lia].
      * destruct (startswith (strip l) "## " || startswith (strip l) "### ")
          eqn:Eh; simpl.
        -- left. unfold bullets_of; simpl. rewrite app_nil_r.
           f_equal. f_equal. lia.
        -- rewrite bullets_of_cons.
           match goal with
           | |- context [collect_bullets fuel lines (i + 1) ?a] =>
               destruct (IH (i + 1) a) as [H | [H Hf]]
           end.
           ++ left. rewrite H. replace (i + 1) with (S i) by lia.
              f_equal. f_equal.
              ** destruct (startswith (strip l) "- ");
                   simpl; rewrite <- ?app_assoc; reflexivity.
              ** lia.
           ++ right. split; [exact H | lia].
    + left. rewrite skipn_all2 by lia. unfold bullets_of; simpl.
      rewrite app_nil_r. f_equal. f_equal. lia.
Qed.

Lemma collect_summary_cases (lines : list string) (fuel i : nat)
  (acc : list string) :
  let seg := take_while summary_line (skipn i lines) in
  collect_summary fuel lines i acc
  = Ok (acc ++ map strip seg, i + List.length seg)
  \/ (collect_summary fuel lines i acc = OutOfFuel
      /\ fuel <= List.length lines - i).
Proof.
  revert i acc; induction fuel as [|fuel IH]; intros i acc; simpl.
  - right; split; [reflexivity | lia].
  - destruct (Nat.ltb_spec i (List.length lines)) as [Hi | Hi].
    + destruct (lt_nth_error lines i Hi) as [l Hl].
      unfold getitem; rewrite Hl; simpl.
      rewrite (nth_error_skipn_cons _ _ _ Hl); simpl.
      unfold summary_line at 1 3, blank, section_heading.
      destruct (negb (is_empty (strip l))
                && negb (startswith (strip l) "## ")) eqn:E; simpl.
      * destruct (IH (i + 1) (acc ++ [strip l])) as [H | [H Hf]].
        -- left. rewrite H. replace (i + 1) with (S i) by lia.
           rewrite <- app_assoc. simpl. f_equal. f_equal. lia.
        -- right. split; [exact H | lia].
      * left. rewrite app_nil_r. f_equal. f_equal. lia.
    + left. rewrite skipn_all2 by lia. simpl.
      rewrite app_nil_r. f_equal. f_equal. lia.
Qed.

Lemma read_meta_spec (lines : list string) (i : nat) :
  read_meta lines i
  = Ok (if has_meta (skipn i lines)
        then (strip (remove_bold (strip (hd "" (skipn i lines)))), i + 1)
        else ("", i)).
Proof.
  unfold read_meta.
  destruct (Nat.ltb_spec i (List.length lines)) as [Hi | Hi].
  - destruct (lt_nth_error lines i Hi) as [l Hl].
    unfold getitem; rewrite Hl; simpl.
    rewrite (nth_error_skipn_cons _ _ _ Hl); simpl.
    destruct (startswith (strip l) "**"); reflexivity.
  - rewrite skipn_all2 by lia. reflexivity.
Qed.

Lemma read_subtitle_spec (lines : list string) (i : nat) :
  read_subtitle lines i
  = Ok (if has_subtitle (skipn i lines)
        then (strip (hd "" (skipn i lines)), i + 1)
        else ("", i)).
Proof.
  unfold read_subtitle.
  destruct (Nat.ltb_spec i (List.length lines)) as [Hi | Hi].
  - destruct (lt_nth_error lines i Hi) as [l Hl].
    unfold getitem; rewrite Hl; simpl.
    rewrite (nth_error_skipn_cons _ _ _ Hl); simpl.
    unfold blank, section_heading.
    destruct (negb (is_empty (strip l)) && negb (startswith (strip l) "-")
              && negb (startswith (strip l) "## ")); reflexivity.
  - rewrite skipn_all2 by lia. reflexivity.
Qed.

Lemma skipn_add_take_while (lines : list string) (i : nat)
  (p : string -> bool) :
  skipn (i + List.length (take_while p (skipn i lines))) lines
  = drop_while p (skipn i lines).
Proof.
  rewrite Nat.add_comm, <- skipn_skipn. apply skipn_take_while.
Qed.

Lemma firstn_1_tl {A : Type} (l : list A) : firstn 1 l ++ tl l = l.
Proof. destruct l; reflexivity. Qed.

Lemma parse_item_cases (lines : list string) (fuel i : nat) (line : string) :
  let rest := skipn (i + 1) lines in
  parse_item fuel lines i line
  = Ok (item_of line rest, i + 1 + List.length (item_consumed rest))
  \/ (parse_item fuel lines i line = OutOfFuel
      /\ fuel <= List.length lines - (i + 1)).
Proof.
  intros rest. unfold parse_item.
  destruct (skip_blank_cases lines fuel (i + 1)) as [H1 | [H1 Hf]];
    [| right; rewrite H1; split; [reflexivity | exact Hf]].
  rewrite H1; simpl bind. fold rest.
  set (i1 := i + 1 + List.length (take_while blank rest)).
  assert (Hb : skipn i1 lines = drop_while blank rest)
    by apply skipn_add_take_while.
  set (b := drop_while blank rest) in *.
  rewrite read_meta_spec, Hb. simpl bind.
  set (i2 := if has_meta b then i1 + 1 else i1).
  assert (Hc : skipn i2 lines = after_meta b).
  { unfold i2, after_meta. destruct (has_meta b); auto.
    replace (i1 + 1) with (S i1) by lia.
    rewrite skipn_S_tl, Hb. reflexivity. }
  set (c := after_meta b) in *.
  assert (E2 : (let '(meta, i2) :=
                  if has_meta b
                  then (strip (remove_bold (strip (hd "" b))), i1 + 1)
                  else ("", i1) in
                '(subtitle, i3) <- read_subtitle lines i2;;
                '(bullets, i4) <- collect_bullets fuel lines i3 [];;
                Ok ({| title := strip (drop 4 line); meta := meta;
                       subtitle := subtitle; bullets := bullets |}, i4))
               = ('(subtitle, i3) <- read_subtitle lines i2;;
                  '(bullets, i4) <- collect_bullets fuel lines i3 [];;
                  Ok ({| title := strip (drop 4 line);
                         meta := if has_meta b
                                 then strip (remove_bold (strip (hd "" b)))
                                 else "";
                         subtitle := subtitle; bullets := bullets |}, i4)))
    by (unfold i2; destruct (has_meta b); reflexivity).
  rewrite E2; clear E2.
  rewrite read_subtitle_spec, Hc. simpl bind.
  set (i3 := if has_subtitle c then i2 + 1 else i2).
  assert (He : skipn i3 lines = after_subtitle c).
  { unfold i3, after_subtitle. destruct (has_subtitle c); auto.
    replace (i2 + 1) with (S i2) by lia.
    rewrite skipn_S_tl, Hc. reflexivity. }
  set (e := after_subtitle c) in *.
  assert (E3 : (let '(subtitle, i3) :=
                  if has_subtitle c then (strip (hd "" c), i2 + 1)
                  else ("", i2) in
                '(bullets, i4) <- collect_bullets fuel lines i3 [];;
                Ok ({| title := strip (drop 4 line);
                       meta := if has_meta b
                               then strip (remove_bold (strip (hd "" b)))
                               else "";
                       subtitle := subtitle; bullets := bullets |}, i4))
               = ('(bullets, i4) <- collect_bullets fuel lines i3 [];;
                  Ok ({| title := strip (drop 4 line);
                         meta := if has_meta b
                                 then strip (remove_bold (strip (hd "" b)))
                                 else "";
                         subtitle := if has_subtitle c then strip (hd "" c)
                                     else "";
                         bullets := bullets |}, i4)))
    by (unfold i3; destruct (has_subtitle c); reflexivity).
  rewrite E3; clear E3.
  destruct (collect_bullets_cases lines fuel i3 []) as [H4 | [H4 Hf]].
  - left. rewrite H4, He. simpl.
    unfold item_of, item_consumed. fold b c e.
    f_equal. f_equal.
    rewrite !length_app.
    unfold i3, i2, i1.
    assert (Hm : List.length (if has_meta b then firstn 1 b else [])
                 = if has_meta b then 1 else 0).
    { unfold has_meta. destruct b; simpl; auto.
      destruct (startswith (strip s) "**"); reflexivity. }
    assert (Hs : List.length (if has_subtitle c then firstn 1 c else [])
                 = if has_subtitle c then 1 else 0).
    { unfold has_subtitle. destruct c; simpl; auto.
      destruct (negb (blank s) && negb (startswith (strip s) "-")
                && negb (section_heading s)); reflexivity. }
    rewrite Hm, Hs.
    destruct (has_meta b), (has_subtitle c); lia.
  - right. rewrite H4. split; [reflexivity |].
    unfold i3, i2, i1 in Hf.
    destruct (has_meta b), (has_subtitle c); lia.
Qed.

(* ================================================================== *)
(** * One turn of the main loop *)
(* ================================================================== *)

Lemma body_step (lines : list string) (fuel : nat) (st st' : State) :
  body fuel lines st = Ok st' -> step lines st st'.
Proof.
  destruct st as [i sec d]. unfold body; simpl.
  destruct (getitem lines i) as [l | |] eqn:Hg; simpl; try discriminate.
  apply getitem_Ok in Hg.
  destruct (is_empty (strip l)) eqn:E1.
  { intros H; inversion H; subst. eapply step_blank; eauto. }
  destruct (is_image_line (strip l)) eqn:E2.
  { intros H; inversion H; subst. eapply step_image; eauto. }
  destruct (startswith (strip l) "# " && is_empty (name d)) eqn:E3.
  { intros H; inversion H; subst.
    apply andb_true_iff in E3 as [E3 E3'].
    eapply step_name; eauto. }
  destruct (startswith (strip l) "**" && endswith (strip l) "**"
            && is_empty (role d)) eqn:E4.
  { intros H; inversion H; subst.
    apply andb_true_iff in E4 as [E4 E4'].
    eapply step_role; eauto. }
  destruct (startswith (strip l) "## ") eqn:E5.
  { intros H; inversion H; subst. eapply step_section; eauto. }
  destruct (startswith (strip l) "### ") eqn:E6.
  { destruct (parse_item fuel lines i (strip l)) as [[item i'] | |] eqn:Hp;
      simpl; try discriminate.
    intros H; inversion H; subst. eapply step_item; eauto. }
  destruct (String.eqb sec "professional summary") eqn:E7.
  { apply String.eqb_eq in E7.
    destruct (collect_summary fuel lines (i + 1) [strip l])
      as [[parts i'] | |] eqn:Hc; simpl; try discriminate.
    intros H; inversion H; subst. eapply step_summary; eauto. }
  apply String.eqb_neq in E7.
  destruct (String.eqb sec "core skills" && startswith (strip l) "- ")
    eqn:E8.
  { intros H; inversion H; subst.
    apply andb_true_iff in E8 as [E8 E8'].
    apply String.eqb_eq in E8. subst.
    eapply step_skill; eauto. }
  destruct (contains sec "role alignment" && startswith (strip l) "- ")
    eqn:E9.
  { intros H; inversion H; subst.
    apply andb_true_iff in E9 as [E9 E9'].
    eapply step_fit; eauto. }
  intros H; inversion H; subst. eapply step_contact; eauto.
Qed.

Lemma body_total (lines : list string) (fuel : nat) (st : State) :
  cur st < List.length lines ->
  List.length lines - (cur st + 1) < fuel ->
  exists st', body fuel lines st = Ok st'.
Proof.
  destruct st as [i sec d]; simpl. intros Hi Hf.
  destruct (lt_nth_error lines i Hi) as [l Hl].
  unfold body; simpl. unfold getitem; rewrite Hl; simpl.
  destruct (is_empty (strip l)); eauto.
  destruct (is_image_line (strip l)); eauto.
  destruct (startswith (strip l) "# " && is_empty (name d)); eauto.
  destruct (startswith (strip l) "**" && endswith (strip l) "**"
            && is_empty (role d)); eauto.
  destruct (startswith (strip l) "## "); eauto.
  destruct (startswith (strip l) "### ").
  { destruct (parse_item_cases lines fuel i (strip l)) as [H | [H Hc]];
      [rewrite H; simpl; eauto | lia]. }
  destruct (String.eqb sec "professional summary").
  { destruct (collect_summary_cases lines fuel (i + 1) [strip l])
      as [H | [H Hc]]; [rewrite H; simpl; eauto | lia]. }
  destruct (String.eqb sec "core skills" && startswith (strip l) "- ");
    eauto.
  destruct (contains sec "role alignment" && startswith (strip l) "- ");
    eauto.
Qed.

(** ** What a turn reads and skips *)

Lemma startswith_cons_inv (s p : string) (a : ascii) :
  startswith s (String a p) = true ->
  exists r, s = String a r /\ startswith r p = true.
Proof.
  destruct s as [|b r]; unfold startswith; fold startswith;
    [discriminate |].
  intros H. apply andb_true_iff in H as [H1 H2].
  apply Ascii.eqb_eq in H1. subst. eauto.
Qed.

Lemma startswith_clash (s p q : string) (a b : ascii) :
  a <> b ->
  startswith s (String a p) = true ->
  startswith s (String b q) = false.
Proof.
  intros Hab H. apply startswith_cons_inv in H as (r & -> & _).
  unfold startswith; fold startswith.
  apply andb_false_iff; left. apply Ascii.eqb_neq. congruence.
Qed.

Lemma blank_not_section (l : string) :
  blank l = true -> section_heading l = false.
Proof.
  unfold blank, section_heading. intros H.
  apply is_empty_true in H. rewrite H. reflexivity.
Qed.

Lemma image_not_section (s : string) :
  is_image_line s = true -> startswith s "## " = false.
Proof.
  unfold is_image_line. intros H.
  apply andb_true_iff in H as [H _].
  apply andb_true_iff in H as [H _].
  eapply startswith_clash; [| exact H]. discriminate.
Qed.

Lemma name_not_section (s : string) :
  startswith s "# " = true -> startswith s "## " = false.
Proof.
  intros H. apply startswith_cons_inv in H as (r & -> & H).
  unfold startswith; fold startswith.
  rewrite (startswith_clash r "" " " " " "#" ltac:(discriminate) H).
  apply andb_false_r.
Qed.

Lemma bold_not_section (s : string) :
  startswith s "**" = true -> startswith s "## " = false.
Proof. apply startswith_clash. discriminate. Qed.

Lemma item_consumed_split (rest : list string) :
  rest = item_consumed rest
         ++ drop_while not_heading23
              (after_subtitle (after_meta (drop_while blank rest))).
Proof.
  unfold item_consumed.
  set (b := drop_while blank rest).
  set (c := after_meta b). set (e := after_subtitle c).
  rewrite <- !app_assoc, take_drop_while.
  assert (Hc : (if has_subtitle c then firstn 1 c else []) ++ e = c).
  { unfold e, after_subtitle. destruct (has_subtitle c);
      [apply firstn_1_tl | reflexivity]. }
  assert (Hb : (if has_meta b then firstn 1 b else []) ++ c = b).
  { unfold c, after_meta. destruct (has_meta b);
      [apply firstn_1_tl | reflexivity]. }
  rewrite Hc, Hb. unfold b. symmetry; apply take_drop_while.
Qed.

Lemma item_consumed_no_section (rest : list string) :
  Forall (fun x => section_heading x = false) (item_consumed rest).
Proof.
  unfold item_consumed.
  set (b := drop_while blank rest).
  set (c := after_meta b). set (e := after_subtitle c).
  apply Forall_app; split;
    [| apply Forall_app; split; [| apply Forall_app; split]].
  - eapply Forall_impl; [| apply take_while_Forall].
    intros a Ha. apply blank_not_section, Ha.
  - unfold has_meta. destruct b as [|m b']; [constructor |].
    destruct (startswith (strip m) "**") eqn:E; constructor; auto.
    apply bold_not_section, E.
  - unfold has_subtitle. destruct c as [|s c']; [constructor |].
    destruct (negb (blank s) && negb (startswith (strip s) "-")
              && negb (section_heading s)) eqn:E; constructor; auto.
    apply andb_true_iff in E as [_ E]. apply negb_true_iff, E.
  - eapply Forall_impl; [| apply take_while_Forall].
    intros a Ha. unfold not_heading23 in Ha.
    apply negb_true_iff, orb_false_iff in Ha. apply Ha.
Qed.

Lemma parse_item_span (lines : list string) (fuel i i' : nat)
  (line : string) (item : Item) :
  i < List.length lines ->
  parse_item fuel lines i line = Ok (item, i') ->
  item = item_of line (skipn (i + 1) lines)
  /\ span lines (i + 1) i' (item_consumed (skipn (i + 1) lines)).
Proof.
  intros Hi H.
  destruct (parse_item_cases lines fuel i line) as [H' | [H' _]];
    rewrite H' in H; [| discriminate].
  inversion H; subst. split; [reflexivity |].
  eapply span_prefix; [apply item_consumed_split | lia].
Qed.

Lemma collect_summary_span (lines : list string) (fuel i i' : nat)
  (acc parts : list string) :
  i <= List.length lines ->
  collect_summary fuel lines i acc = Ok (parts, i') ->
  parts = acc ++ map strip (take_while summary_line (skipn i lines))
  /\ span lines i i' (take_while summary_line (skipn i lines)).
Proof.
  intros Hi H.
  destruct (collect_summary_cases lines fuel i acc) as [H' | [H' _]];
    rewrite H' in H; [| discriminate].
  inversion H; subst. split; [reflexivity |].
  apply span_take_while, Hi.
Qed.

Lemma step_visits (lines : list string) (st st' : State) :
  step lines st st' ->
  exists l seg,
    nth_error lines (cur st) = Some l
    /\ span lines (cur st + 1) (cur st') seg
    /\ Forall (fun x => section_heading x = false) seg
    /\ current_section st'
       = (if section_heading l then section_name l
          else current_section st).
Proof.
  intros H.
  assert (Hlen : forall i l, nth_error lines i = Some l ->
                             i + 1 <= List.length lines).
  { intros i l Hn.
    assert (i < List.length lines) by (apply nth_error_Some; congruence).
    lia. }
  assert (Hone : forall i l sec sec',
             nth_error lines i = Some l ->
             sec' = (if section_heading l then section_name l else sec) ->
             exists l0 seg,
               nth_error lines i = Some l0
               /\ span lines (i + 1) (i + 1) seg
               /\ Forall (fun x => section_heading x = false) seg
               /\ sec' = (if section_heading l0 then section_name l0
                          else sec)).
  { intros i l sec sec' Hn E. exists l, [].
    split; [exact Hn |]. split; [apply span_nil; eauto |].
    split; [constructor | exact E]. }
  inversion H; subst; simpl.
  - eapply Hone; eauto. rewrite blank_not_section; auto.
  - eapply Hone; eauto.
    unfold section_heading. rewrite image_not_section; auto.
  - eapply Hone; eauto.
    unfold section_heading. rewrite name_not_section; auto.
  - eapply Hone; eauto.
    unfold section_heading. rewrite bold_not_section; auto.
    match goal with
    | Hb : bold_only _ = true |- _ =>
        unfold bold_only in Hb; apply andb_true_iff in Hb as [Hb _];
        exact Hb
    end.
  - eapply Hone; eauto.
    unfold section_heading.
    match goal with Hs : startswith _ "## " = true |- _ => rewrite Hs end.
    reflexivity.
  - exists l, (item_consumed (skipn (i + 1) lines)).
    split; [assumption |]. split.
    { eapply parse_item_span; eauto. apply nth_error_Some; congruence. }
    split; [apply item_consumed_no_section |].
    unfold section_heading.
    match goal with Hs : startswith _ "## " = false |- _ => rewrite Hs end.
    reflexivity.
  - exists l, (take_while summary_line (skipn (i + 1) lines)).
    split; [assumption |]. split.
    { eapply collect_summary_span; eauto. }
    split.
    { eapply Forall_impl; [| apply take_while_Forall].
      intros a Ha. unfold summary_line in Ha.
      apply andb_true_iff in Ha as [_ Ha]. apply negb_true_iff, Ha. }
    unfold section_heading.
    match goal with Hs : startswith _ "## " = false |- _ => rewrite Hs end.
    reflexivity.
  - eapply Hone; eauto.
    unfold section_heading.
    match goal with Hs : startswith _ "## " = false |- _ => rewrite Hs end.
    reflexivity.
  - eapply Hone; eauto.
    unfold section_heading.
    match goal with Hs : startswith _ "## " = false |- _ => rewrite Hs end.
    reflexivity.
  - eapply Hone; eauto.
    unfold section_heading.
    match goal with Hs : startswith _ "## " = false |- _ => rewrite Hs end.
    reflexivity.
Qed.

(* ================================================================== *)
(** * The main loop *)
(* ================================================================== *)

Lemma step_bounds (lines : list string) (st st' : State) :
  step lines st st' ->
  cur st < cur st' /\ cur st' <= List.length lines.
Proof.
  intros H. apply step_visits in H as (l & seg & _ & Hs & _).
  apply span_le in Hs. lia.
Qed.

Lemma main_loop_steps (lines : list string) (fuel : nat) (st : State)
  (d : Data) :
  main_loop fuel lines st = Ok d ->
  exists st', steps lines st st'
              /\ List.length lines <= cur st' /\ data st' = d.
Proof.
  revert st; induction fuel as [|fuel IH]; intros st; simpl;
    [discriminate |].
  destruct (Nat.ltb_spec (cur st) (List.length lines)) as [Hi | Hi].
  - destruct (body fuel lines st) as [st1 | |] eqn:Hb; simpl;
      try discriminate.
    intros H. apply IH in H as (st' & Hs & Hn & Hd).
    exists st'. split; [| auto].
    eapply steps_cons; [eapply body_step; eauto | exact Hs].
  - intros H; inversion H; subst. exists st.
    split; [constructor | auto].
Qed.

Lemma main_loop_total (lines : list string) (fuel : nat) (st : State) :
  List.length lines - cur st < fuel ->
  exists d, main_loop fuel lines st = Ok d.
Proof.
  revert st; induction fuel as [|fuel IH]; intros st Hf; [lia |].
  simpl.
  destruct (Nat.ltb_spec (cur st) (List.length lines)) as [Hi | Hi];
    [| eauto].
  destruct (body_total lines fuel st Hi ltac:(lia)) as [st1 Hb].
  rewrite Hb; simpl.
  apply IH.
  apply body_step, step_bounds in Hb. lia.
Qed.

(** [parse_lines] always returns, and its result is the data of a state
    that the turns of the loop reach from the initial one. *)
Lemma parse_lines_steps (lines : list string) :
  exists st, parse_lines lines = Ok (data st)
             /\ steps lines (init_state lines) st
             /\ List.length lines <= cur st.
Proof.
  unfold parse_lines.
  destruct (main_loop_total lines (S (List.length lines)) (init_state lines))
    as [d Hd]; [simpl; lia |].
  destruct (main_loop_steps _ _ _ _ Hd) as (st & Hs & Hn & E).
  exists st. subst d. auto.
Qed.

(** A property kept by every turn holds along the run. *)
Lemma steps_invariant (lines : list string) (P : State -> Prop) :
  (forall st st', P st -> step lines st st' -> P st') ->
  forall st st', steps lines st st' -> P st -> P st'.
Proof.
  intros Hstep st st' H. induction H; eauto.
Qed.

Lemma steps_cur_le (lines : list string) (st st' : State) :
  steps lines st st' -> cur st <= cur st'.
Proof.
  induction 1 as [|st st1 st2 H1 _ IH]; [lia |].
  apply step_bounds in H1. lia.
Qed.

(** A run that starts at or before the index [k] and ends at or after it
    stops at [k] when no turn before [k] jumps over it. *)
Lemma steps_reach (lines : list string) (P : State -> Prop) (k : nat) :
  (forall st st', P st -> cur st < k -> step lines st st' ->
                  P st' /\ cur st' <= k) ->
  forall st st_f,
    steps lines st st_f -> P st -> cur st <= k -> k <= cur st_f ->
    exists st_k, steps lines st_k st_f /\ P st_k /\ cur st_k = k.
Proof.
  intros Hstep st st_f H.
  induction H as [st | st st1 st2 H1 H2 IH]; intros HP Hle Hge.
  - exists st. repeat split; [constructor | auto | lia].
  - destruct (Nat.eq_dec (cur st) k) as [E | E].
    + exists st. repeat split; auto. eapply steps_cons; eauto.
    + destruct (Hstep st st1 HP ltac:(lia) H1) as [HP1 Hk1].
      apply IH; auto.
Qed.

(** No turn jumps over a [## ] line. *)
Lemma step_stops_at_section (lines : list string) (st st' : State)
  (k : nat) (h : string) :
  nth_error lines k = Some h -> section_heading h = true ->
  step lines st st' -> cur st < k -> cur st' <= k.
Proof.
  intros Hk Hh H Hlt.
  apply step_visits in H as (l & seg & _ & Hs & Hall & _).
  destruct (Nat.le_gt_cases (cur st') k) as [|Hgt]; auto.
  exfalso.
  rewrite (span_nth _ _ _ k _ Hs) in Hk by lia.
  apply nth_error_In in Hk.
  rewrite Forall_forall in Hall. rewrite (Hall _ Hk) in Hh. discriminate.
Qed.

(* ================================================================== *)
(** * Stripped text *)
(* ================================================================== *)

Local Open Scope string_scope.

Lemma rstrip_by_empty (p : ascii -> bool) (s : string) :
  rstrip_by p s = "" -> all_chars p s = true.
Proof.
  induction s as [|c r IH]; simpl; auto.
  destruct (rstrip_by p r) eqn:E; [| discriminate].
  destruct (p c); [intros _; simpl; auto | discriminate].
Qed.

Lemma lstrip_by_empty (p : ascii -> bool) (s : string) :
  lstrip_by p s = "" -> all_chars p s = true.
Proof.
  induction s as [|c r IH]; simpl; auto.
  destruct (p c); [simpl; auto | discriminate].
Qed.

Lemma lstrip_by_head (p : ascii -> bool) (s : string) (a : ascii)
  (t : string) :
  lstrip_by p s = String a t -> p a = false.
Proof.
  induction s as [|c r IH]; simpl; [discriminate |].
  destruct (p c) eqn:E; auto.
  intros H; inversion H; subst; auto.
Qed.

Lemma all_chars_last (p : ascii -> bool) (x : string) (c : ascii) :
  all_chars p (x ++ String c "") = true -> p c = true.
Proof.
  induction x as [|a x IH]; simpl.
  - rewrite andb_true_r; auto.
  - intros H. apply andb_true_iff in H as [_ H]. auto.
Qed.

Lemma rstrip_by_last (p : ascii -> bool) (s x : string) (c : ascii) :
  rstrip_by p s = x ++ String c "" -> p c = false.
Proof.
  revert x; induction s as [|a r IH]; intros x; simpl.
  - destruct x; discriminate.
  - destruct (rstrip_by p r) as [|b r'] eqn:E.
    + destruct (p a) eqn:Ea.
      * destruct x; discriminate.
      * destruct x as [|a' x]; simpl; intros H; inversion H; subst; auto.
        destruct x; discriminate.
    + destruct x as [|a' x]; simpl; intros H; inversion H; subst.
      eapply IH; eauto.
Qed.

Lemma last_char_exists (s : string) :
  s <> "" -> exists x c, s = x ++ String c "".
Proof.
  induction s as [|a r IH]; [congruence |]. intros _.
  destruct r as [|b r'].
  - exists "", a. reflexivity.
  - destruct IH as (x & c & E); [discriminate |].
    exists (String a x), c. simpl. rewrite <- E. reflexivity.
Qed.

Lemma startswith_app_inv (s p : string) :
  startswith s p = true -> s = p ++ drop (String.length p) s.
Proof.
  revert s; induction p as [|a p IH]; intros s H; simpl.
  - destruct s; reflexivity.
  - apply startswith_cons_inv in H as (r & -> & H).
    unfold drop; fold drop. rewrite <- (IH r H). reflexivity.
Qed.

Lemma append_assoc (a b c : string) : (a ++ b) ++ c = a ++ (b ++ c).
Proof. induction a; simpl; congruence. Qed.

Lemma append_nil_r (a : string) : a ++ "" = a.
Proof. induction a; simpl; congruence. Qed.

(** What follows a prefix that ends with a space, in a stripped line, is
    not empty once stripped. *)
Lemma strip_after_prefix (l p : string) :
  startswith (strip l) (p ++ " ") = true ->
  strip (drop (String.length (p ++ " ")) (strip l)) <> "".
Proof.
  intros H. apply startswith_app_inv in H.
  set (r := drop (String.length (p ++ " ")) (strip l)) in *.
  assert (Hr : r <> "").
  { intros E. rewrite E, append_nil_r in H.
    unfold strip in H at 1. apply rstrip_by_last in H. discriminate. }
  destruct (last_char_exists r Hr) as (x & c & Ex).
  assert (Hc : is_space c = false).
  { rewrite Ex, <- append_assoc in H.
    unfold strip in H at 1. apply rstrip_by_last in H. exact H. }
  intros E. unfold strip in E.
  apply rstrip_by_empty in E.
  destruct (lstrip_by is_space r) as [|a t] eqn:El.
  - apply lstrip_by_empty in El. rewrite Ex in El.
    apply all_chars_last in El. congruence.
  - simpl in E. apply andb_true_iff in E as [E _].
    apply lstrip_by_head in El. congruence.
Qed.

Lemma lower_empty (s : string) : lower s = "" -> s = "".
Proof. destruct s; [auto | discriminate]. Qed.

Lemma section_name_nonempty (l : string) :
  section_heading l = true -> section_name l <> "".
Proof.
  unfold section_heading, section_name. intros H E.
  apply lower_empty in E.
  exact (strip_after_prefix l "##" H E).
Qed.

Lemma name_nonempty (l : string) :
  startswith (strip l) "# " = true -> strip (drop 2 (strip l)) <> "".
Proof. intros H. exact (strip_after_prefix l "#" H). Qed.

Local Open Scope list_scope.

(* ================================================================== *)
(** * Fields that a turn leaves alone *)
(* ================================================================== *)

Lemma route_item_fields (sec : string) (item : Item) (d : Data) :
  name (route_item sec item d) = name d
  /\ role (route_item sec item d) = role d
  /\ contacts (route_item sec item d) = contacts d
  /\ summary (route_item sec item d) = summary d
  /\ skills (route_item sec item d) = skills d
  /\ fit (route_item sec item d) = fit d
  /\ image_from_md (route_item sec item d) = image_from_md d.
Proof.
  unfold route_item.
  destruct (contains sec "project" || contains sec "highlight");
    simpl; repeat split; reflexivity.
Qed.

Lemma add_contact_fields (sec line : string) (d : Data) :
  name (add_contact sec line d) = name d
  /\ role (add_contact sec line d) = role d
  /\ summary (add_contact sec line d) = summary d
  /\ skills (add_contact sec line d) = skills d
  /\ experience (add_contact sec line d) = experience d
  /\ projects (add_contact sec line d) = projects d
  /\ fit (add_contact sec line d) = fit d
  /\ image_from_md (add_contact sec line d) = image_from_md d.
Proof.
  unfold add_contact.
  destruct (is_empty sec && negb (is_empty line)
            && negb (startswith line "#"));
    [destruct (negb (mem line (contacts d))) |];
    simpl; repeat split; reflexivity.
Qed.

Lemma route_item_name sec item d : name (route_item sec item d) = name d.
Proof. apply route_item_fields. Qed.
Lemma route_item_role sec item d : role (route_item sec item d) = role d.
Proof. apply route_item_fields. Qed.
Lemma route_item_contacts sec item d :
  contacts (route_item sec item d) = contacts d.
Proof. apply route_item_fields. Qed.
Lemma route_item_summary sec item d :
  summary (route_item sec item d) = summary d.
Proof. apply route_item_fields. Qed.
Lemma route_item_skills sec item d :
  skills (route_item sec item d) = skills d.
Proof. apply route_item_fields. Qed.
Lemma route_item_fit sec item d : fit (route_item sec item d) = fit d.
Proof. apply route_item_fields. Qed.
Lemma route_item_image sec item d :
  image_from_md (route_item sec item d) = image_from_md d.
Proof. apply route_item_fields. Qed.

Lemma add_contact_name sec line d : name (add_contact sec line d) = name d.
Proof. apply add_contact_fields. Qed.
Lemma add_contact_role sec line d : role (add_contact sec line d) = role d.
Proof. apply add_contact_fields. Qed.
Lemma add_contact_summary sec line d :
  summary (add_contact sec line d) = summary d.
Proof. apply add_contact_fields. Qed.
Lemma add_contact_skills sec line d :
  skills (add_contact sec line d) = skills d.
Proof. apply add_contact_fields. Qed.
Lemma add_contact_experience sec line d :
  experience (add_contact sec line d) = experience d.
Proof. apply add_contact_fields. Qed.
Lemma add_contact_projects sec line d :
  projects (add_contact sec line d) = projects d.
Proof. apply add_contact_fields. Qed.
Lemma add_contact_fit sec line d : fit (add_contact sec line d) = fit d.
Proof. apply add_contact_fields. Qed.
Lemma add_contact_image sec line d :
  image_from_md (add_contact sec line d) = image_from_md d.
Proof. apply add_contact_fields. Qed.

Create Rewrite HintDb data_proj.

#[local] Hint Rewrite route_item_name route_item_role route_item_contacts
  route_item_summary route_item_skills route_item_fit route_item_image
  add_contact_name add_contact_role add_contact_summary add_contact_skills
  add_contact_experience add_contact_projects add_contact_fit
  add_contact_image : data_proj.

Lemma add_contact_in_section (sec line : string) (d : Data) :
  sec <> "" -> add_contact sec line d = d.
Proof.
  intros H. unfold add_contact.
  apply is_empty_false in H. rewrite H. reflexivity.
Qed.

(** The cases of a turn, with the fields of the new data reduced. *)
Ltac step_inv H :=
  inversion H; subst; clear H; simpl in *;
  autorewrite with data_proj in *.

Ltac line_in :=
  match goal with
  | Hn : nth_error _ _ = Some ?l |- _ =>
      let Hin := fresh "Hin" in
      pose proof (nth_error_In _ _ Hn) as Hin
  end.

(* ================================================================== *)
(** * Fields left empty *)
(* ================================================================== *)

Section Defaults.

Variable lines : list string.

Lemma default_name :
  (forall l, In l lines -> name_heading l = false) ->
  forall st, steps lines (init_state lines) st -> name (data st) = "".
Proof.
  intros Hno st Hs.
  eapply (steps_invariant lines (fun st => name (data st) = ""));
    [| exact Hs | reflexivity].
  clear st Hs. intros st st' HP H.
  step_inv H; auto.
  line_in. apply Hno in Hin. unfold name_heading in Hin. congruence.
Qed.

Lemma default_role :
  (forall l, In l lines -> bold_only (strip l) = false) ->
  forall st, steps lines (init_state lines) st -> role (data st) = "".
Proof.
  intros Hno st Hs.
  eapply (steps_invariant lines (fun st => role (data st) = ""));
    [| exact Hs | reflexivity].
  clear st Hs. intros st st' HP H.
  step_inv H; auto.
  line_in. apply Hno in Hin. congruence.
Qed.

Lemma default_summary :
  (forall l, In l lines -> section_heading l = true ->
             section_name l <> "professional summary") ->
  forall st, steps lines (init_state lines) st -> summary (data st) = "".
Proof.
  intros Hno st Hs.
  enough (summary (data st) = ""
          /\ current_section st <> "professional summary") by tauto.
  eapply (steps_invariant lines
            (fun st => summary (data st) = ""
                       /\ current_section st <> "professional summary"));
    [| exact Hs | split; [reflexivity | discriminate]].
  clear st Hs. intros st st' [HP Hsec] H.
  step_inv H; auto; try tauto.
  line_in. split; auto.
Qed.

Lemma default_skills :
  (forall l, In l lines -> section_heading l = true ->
             section_name l <> "core skills") ->
  forall st, steps lines (init_state lines) st -> skills (data st) = [].
Proof.
  intros Hno st Hs.
  enough (skills (data st) = []
          /\ current_section st <> "core skills") by tauto.
  eapply (steps_invariant lines
            (fun st => skills (data st) = []
                       /\ current_section st <> "core skills"));
    [| exact Hs | split; [reflexivity | discriminate]].
  clear st Hs. intros st st' [HP Hsec] H.
  step_inv H; auto; try tauto.
  line_in. split; auto.
Qed.

Lemma default_fit :
  (forall l, In l lines -> section_heading l = true ->
             contains (section_name l) "role alignment" = false) ->
  forall st, steps lines (init_state lines) st -> fit (data st) = [].
Proof.
  intros Hno st Hs.
  enough (fit (data st) = []
          /\ contains (current_section st) "role alignment" = false)
    by tauto.
  eapply (steps_invariant lines
            (fun st => fit (data st) = []
                       /\ contains (current_section st) "role alignment"
                          = false));
    [| exact Hs | split; reflexivity].
  clear st Hs. intros st st' [HP Hsec] H.
  step_inv H; auto; try congruence.
  line_in. split; auto.
Qed.

Lemma default_items :
  (forall l, In l lines -> item_heading l = false) ->
  forall st, steps lines (init_state lines) st ->
             experience (data st) = [] /\ projects (data st) = [].
Proof.
  intros Hno st Hs.
  eapply (steps_invariant lines
            (fun st => experience (data st) = []
                       /\ projects (data st) = []));
    [| exact Hs | split; reflexivity].
  clear st Hs. intros st st' HP H.
  step_inv H; auto.
  line_in. apply Hno in Hin. unfold item_heading in Hin. congruence.
Qed.

Lemma image_kept :
  forall st, steps lines (init_state lines) st ->
             image_from_md (data st) = find_image lines.
Proof.
  intros st Hs.
  eapply (steps_invariant lines
            (fun st => image_from_md (data st) = find_image lines));
    [| exact Hs | reflexivity].
  clear st Hs. intros st st' HP H.
  step_inv H; auto.
Qed.

Lemma find_image_none (ls : list string) :
  (forall l, In l ls -> is_image_line (strip l) = false) ->
  find_image ls = "".
Proof.
  induction ls as [|l r IH]; simpl; auto.
  intros H. rewrite (H l) by auto. apply IH. intros; apply H; auto.
Qed.

End Defaults.

(** Lines before the first non-blank one are blank; contacts stay empty
    when that line is a section heading. *)
Lemma default_contacts (lines : list string) :
  (drop_while blank lines = []
   \/ exists h t, drop_while blank lines = h :: t
                  /\ section_heading h = true) ->
  forall st, steps lines (init_state lines) st -> contacts (data st) = [].
Proof.
  intros Hfirst st Hs.
  set (k := List.length (take_while blank lines)).
  assert (Hsp : span lines 0 k (take_while blank lines)).
  { apply (span_take_while lines 0 blank). lia. }
  assert (Hblank : forall i l, i < k -> nth_error lines i = Some l ->
                               blank l = true).
  { intros i l Hi Hl.
    rewrite (span_nth _ _ _ i _ Hsp) in Hl by lia.
    apply nth_error_In in Hl.
    pose proof (take_while_Forall blank lines) as Hall.
    rewrite Forall_forall in Hall. apply Hall. exact Hl. }
  assert (Hk : forall l, nth_error lines k = Some l ->
                         section_heading l = true).
  { intros l Hl.
    apply nth_error_skipn_cons in Hl.
    unfold k in Hl at 1.
    rewrite skipn_take_while in Hl.
    destruct Hfirst as [E | (h & t & E & Hh)]; rewrite E in Hl.
    - discriminate.
    - inversion Hl; subst; exact Hh. }
  enough (contacts (data st) = []
          /\ (current_section st = "" -> cur st <= k)) by tauto.
  eapply (steps_invariant lines
            (fun st => contacts (data st) = []
                       /\ (current_section st = "" -> cur st <= k)));
    [| exact Hs | split; [reflexivity | simpl; lia]].
  clear st Hs. intros st st' [HP Hsec] H.
  assert (Hcase : current_section st <> ""
                  \/ (current_section st = "" /\ cur st < k)
                  \/ (current_section st = "" /\ cur st = k)).
  { destruct (string_dec (current_section st) "") as [E | E];
      [right | left; exact E].
    specialize (Hsec E).
    destruct (Nat.eq_dec (cur st) k); [right | left]; split; auto; lia. }
  destruct Hcase as [Hne | [[He Hlt] | [He Heq]]].
  - (* inside a section *)
    split.
    + step_inv H; auto.
      rewrite add_contact_in_section by exact Hne. exact HP.
    + intros E. exfalso.
      apply step_visits in H as (l & seg & Hl & _ & _ & Hsec').
      rewrite Hsec' in E.
      destruct (section_heading l) eqn:Eh; [| congruence].
      eapply section_name_nonempty; eauto.
  - (* a blank line before the first heading *)
    assert (Hb : forall l, nth_error lines (cur st) = Some l ->
                           is_empty (strip l) = true).
    { intros l Hl. exact (Hblank _ _ Hlt Hl). }
    step_inv H;
      try (match goal with
           | Hn : nth_error lines _ = Some ?l,
             Hf : is_empty (strip ?l) = false |- _ =>
               rewrite (Hb _ Hn) in Hf; discriminate
           end).
    split; auto. intros _. lia.
  - (* the first heading *)
    assert (Hh : forall l, nth_error lines (cur st) = Some l ->
                           startswith (strip l) "## " = true).
    { intros l Hl. rewrite Heq in Hl. exact (Hk _ Hl). }
    split.
    + step_inv H; auto; exfalso;
      match goal with
      | Hn : nth_error lines _ = Some ?l,
        Hf : startswith (strip ?l) "## " = false |- _ =>
          rewrite (Hh _ Hn) in Hf; discriminate
      end.
    + intros E. exfalso.
      apply step_visits in H as (l & seg & Hl & _ & _ & Hsec').
      rewrite Hsec' in E. unfold section_heading in E.
      rewrite (Hh _ Hl) in E.
      eapply section_name_nonempty; [| exact E]. exact (Hh _ Hl).
Qed.
Theorem C1_parse_markdown_total (md_text : string) :
  exists d : Data,
    parse_markdown md_text = Ok d
    /\ ((forall l, In l (splitlines md_text) -> name_heading l = false) ->
        name d = "")
    /\ ((forall l, In l (splitlines md_text) ->
                   bold_only (strip l) = false) ->
        role d = "")
    /\ ((drop_while blank (splitlines md_text) = []
         \/ exists h t, drop_while blank (splitlines md_text) = h :: t
                        /\ section_heading h = true) ->
        contacts d = [])
    /\ ((forall l, In l (splitlines md_text) -> section_heading l = true ->
                   section_name l <> "professional summary") ->
        summary d = "")
    /\ ((forall l, In l (splitlines md_text) -> section_heading l = true ->
                   section_name l <> "core skills") ->
        skills d = [])
    /\ ((forall l, In l (splitlines md_text) -> item_heading l = false) ->
        experience d = [] /\ projects d = [])
    /\ ((forall l, In l (splitlines md_text) -> section_heading l = true ->
                   contains (section_name l) "role alignment" = false) ->
        fit d = [])
    /\ ((forall l, In l (splitlines md_text) ->
                   is_image_line (strip l) = false) ->
        image_from_md d = "").
Proof.
  unfold parse_markdown.
  destruct (parse_lines_steps (splitlines md_text)) as (st & Hp & Hs & _).
  exists (data st). split; [exact Hp |].
  split; [intros H; eapply default_name; eauto |].
  split; [intros H; eapply default_role; eauto |].
  split; [intros H; eapply default_contacts; eauto |].
  split; [intros H; eapply default_summary; eauto |].
  split; [intros H; eapply default_skills; eauto |].
  split; [intros H; eapply default_items; eauto |].
  split; [intros H; eapply default_fit; eauto |].
  intros H. rewrite (image_kept _ _ Hs). apply find_image_none, H.
Qed.

(** The empty text gives the empty record. *)
Lemma C1_empty_text : parse_markdown "" = Ok empty_data.
Proof. reflexivity. Qed.

(* ================================================================== *)
(** * C9: the name *)
(* ================================================================== *)

Lemma name_not_item (s : string) :
  startswith s "# " = true -> startswith s "### " = false.
Proof.
  intros H. apply startswith_cons_inv in H as (r & -> & H).
  unfold startswith; fold startswith.
  rewrite (startswith_clash r "" "# " " " "#" ltac:(discriminate) H).
  apply andb_false_r.
Qed.

Lemma startswith_nonempty (s p : string) :
  p <> "" -> startswith s p = true -> is_empty s = false.
Proof.
  intros Hp H. destruct s; [| reflexivity].
  rewrite startswith_empty_l in H by exact Hp. discriminate.
Qed.

(** Once set, the name is kept. *)
Lemma name_fixed (lines : list string) (st st' : State) :
  steps lines st st' -> name (data st) <> "" ->
  name (data st') = name (data st).
Proof.
  induction 1 as [|st st1 st2 H1 _ IH]; intros Hne; [reflexivity |].
  assert (E : name (data st1) = name (data st)).
  { step_inv H1; auto.
    apply is_empty_true in H4. congruence. }
  rewrite IH; congruence.
Qed.

Lemma name_not_image (s : string) :
  startswith s "# " = true -> is_image_line s = false.
Proof.
  intros H. unfold is_image_line.
  rewrite (startswith_clash s " " "[" "#" "!" ltac:(discriminate) H).
  reflexivity.
Qed.

Lemma name_not_bullet (s : string) :
  startswith s "# " = true -> startswith s "- " = false.
Proof. apply startswith_clash. discriminate. Qed.

(** The turn at a [# ] line sets the name when none is set. *)
Lemma step_at_name_heading (lines : list string) (st st' : State)
  (h : string) :
  step lines st st' ->
  nth_error lines (cur st) = Some h ->
  startswith (strip h) "# " = true ->
  name (data st) = "" ->
  name (data st') = strip (drop 2 (strip h)).
Proof.
  intros H1 Hl Hh Hname.
  apply is_empty_true in Hname.
  pose proof (startswith_nonempty _ "# " ltac:(discriminate) Hh) as Hne.
  pose proof (name_not_image _ Hh) as Himg.
  pose proof (name_not_section _ Hh) as Hs2.
  pose proof (name_not_item _ Hh) as Hs3.
  pose proof (name_not_bullet _ Hh) as Hb.
  step_inv H1;
    match goal with
    | Hn : nth_error lines _ = Some ?l |- _ =>
        assert (l = h) by congruence; subst l
    end;
    try reflexivity; exfalso; try congruence;
    match goal with
    | H : startswith (strip h) "# " && is_empty (name _) = false |- _ =>
        rewrite Hh, Hname in H; discriminate
    end.
Qed.

(** A turn at a line that is not a [### ] heading, outside the summary
    section, moves the cursor by one line. *)
Lemma step_one_line (lines : list string) (st st' : State) (l : string) :
  step lines st st' ->
  nth_error lines (cur st) = Some l ->
  item_heading l = false ->
  current_section st <> "professional summary" ->
  cur st' = cur st + 1.
Proof.
  intros H Hl Hi Hsec. unfold item_heading in Hi.
  step_inv H; try reflexivity; exfalso; try congruence.
Qed.

Lemma step_sets_section (lines : list string) (st st' : State) (l : string) :
  step lines st st' ->
  nth_error lines (cur st) = Some l ->
  current_section st'
  = (if section_heading l then section_name l else current_section st).
Proof.
  intros H Hl.
  apply step_visits in H as (l' & seg & Hl' & _ & _ & E).
  assert (l' = l) by congruence. subst l'. exact E.
Qed.

Lemma step_name_kept (lines : list string) (st st' : State) (l : string) :
  step lines st st' ->
  nth_error lines (cur st) = Some l ->
  name_heading l = false ->
  name (data st') = name (data st).
Proof.
  intros H Hl Hn. unfold name_heading in Hn.
  step_inv H; try reflexivity; exfalso; congruence.
Qed.

(* ================================================================== *)
(** * C4: the parts of an Item *)
(* ================================================================== *)

(** C4, as amended.  For the Item parsed at a [### ] line [l] found at
    index [i]: [meta] is set, to the line with every bold marker removed
    and trimmed, exactly when the first non-blank line after the heading
    starts with a bold marker; [subtitle], when the line that follows is
    not a [### ] heading, is set to that line exactly when it is non-blank,
    does not start with [-] and is not a [## ] heading; [bullets] are the
    texts of the [- ] lines that follow, up to the next [## ] or [### ]
    heading. *)
Theorem C4_item_parts (lines : list string) (fuel i : nat) (l : string) :
  nth_error lines i = Some l ->
  List.length lines - (i + 1) < fuel ->
  exists item i',
    parse_item fuel lines i (strip l) = Ok (item, i')
    /\ title item = strip (drop 4 (strip l))
    /\ meta item
       = (if has_meta (drop_while blank (skipn (i + 1) lines))
          then strip (remove_bold
                        (strip (hd "" (drop_while blank
                                         (skipn (i + 1) lines)))))
          else "")
    /\ ((forall s r,
            after_meta (drop_while blank (skipn (i + 1) lines)) = s :: r ->
            item_heading s = false) ->
        subtitle item
        = (if has_subtitle
                (after_meta (drop_while blank (skipn (i + 1) lines)))
           then strip (hd "" (after_meta
                                (drop_while blank (skipn (i + 1) lines))))
           else ""))
    /\ bullets item
       = bullets_of
           (take_while not_heading23
              (after_subtitle
                 (after_meta (drop_while blank (skipn (i + 1) lines))))).
Proof.
  intros Hl Hf.
  destruct (parse_item_cases lines fuel i (strip l)) as [H | [_ Hc]];
    [| lia].
  eexists; eexists. split; [exact H |].
  split; [reflexivity |]. split; [reflexivity |].
  split; [intros _; reflexivity | reflexivity].
Qed.

(** The Item of the specification's example, and an Item whose [meta] line
    is followed at once by the next [### ] heading. *)
Lemma C4_witness :
  (exists item i',
      parse_item 5
        ["### Senior Engineer"; "**Acme Corp | 2020-2023**"; "Remote";
         "- built it"; "- ran it"] 0 "### Senior Engineer"
      = Ok (item, i')
      /\ title item = "Senior Engineer"
      /\ meta item = "Acme Corp | 2020-2023"
      /\ subtitle item = "Remote"
      /\ bullets item = ["built it"; "ran it"])
  /\ (exists item i',
         parse_item 3 ["### BSc"; "**MIT | 2014**"; "### MSc"] 0 "### BSc"
         = Ok (item, i')
         /\ title item = "BSc"
         /\ meta item = "MIT | 2014").
Proof.
  split.
  - destruct (C4_item_parts
                ["### Senior Engineer"; "**Acme Corp | 2020-2023**";
                 "Remote"; "- built it"; "- ran it"] 5 0
                "### Senior Engineer")
      as (item & i' & Hp & Ht & Hm & Hs & Hb).
    + reflexivity.
    + simpl; lia.
    + exists item, i'. split; [exact Hp |].
      rewrite Ht, Hm, Hb, Hs.
      * repeat split; reflexivity.
      * intros s r E. vm_compute in E. inversion E; subst. reflexivity.
  - destruct (C4_item_parts ["### BSc"; "**MIT | 2014**"; "### MSc"] 3 0
                "### BSc")
      as (item & i' & Hp & Ht & Hm & _).
    + reflexivity.
    + simpl; lia.
    + exists item, i'. split; [exact Hp |].
      rewrite Ht, Hm. split; reflexivity.
Defined.

(** C4 as stated fails in each of its parts: a line that starts with a bold
    marker is taken as [meta] though it is not wrapped in bold markers; a
    [# ] line is taken as [subtitle]; a [# ] line does not end the
    bullets. *)
Lemma C4_counterexample :
  (let lines := ["### Engineer"; "**Acme** | 2020"; "- built it"] in
   bold_only (strip "**Acme** | 2020") = false
   /\ meta (claimed_item "### Engineer" (skipn 1 lines)) = ""
   /\ exists item i',
        parse_item 3 lines 0 "### Engineer" = Ok (item, i')
        /\ meta item = "Acme | 2020")
  /\ (let lines := ["### Engineer"; "**Acme | 2020**"; "# Remote"] in
      any_heading "# Remote" = true
      /\ subtitle (claimed_item "### Engineer" (skipn 1 lines)) = ""
      /\ exists item i',
           parse_item 3 lines 0 "### Engineer" = Ok (item, i')
           /\ subtitle item = "# Remote")
  /\ (let lines := ["### Engineer"; "- built it"; "# Notes"; "- ran it"] in
      bullets (claimed_item "### Engineer" (skipn 1 lines)) = ["built it"]
      /\ exists item i',
           parse_item 4 lines 0 "### Engineer" = Ok (item, i')
           /\ bullets item = ["built it"; "ran it"]).
Proof.
  split; [| split].
  - split; [reflexivity |]. split; [reflexivity |].
    eexists; eexists. split; reflexivity.
  - split; [reflexivity |]. split; [reflexivity |].
    eexists; eexists. split; reflexivity.
  - split; [reflexivity |].
    eexists; eexists. split; reflexivity.
Qed.

(* ================================================================== *)
(** * C6: the image of the document *)
(* ================================================================== *)

(** C6.  For an image line whose alternative text holds a parenthesis, the
    code takes the text after the first [(] of the line, not the target
    of the image. *)
Theorem C6_image_first_paren :
  exists d : Data,
    parse_markdown "![me (2024)](me.png)" = Ok d
    /\ image_from_md d = "2024)](me.png".
Proof. eexists; split; reflexivity. Qed.
(* ================================================================== *)
(** * Turns at the lines of a region *)
(* ================================================================== *)

(** A turn at a line that is not a [### ] heading takes, besides the line,
    only the lines of a summary run, and only in the summary section. *)
Lemma step_plain (lines : list string) (st st' : State) (l : string) :
  step lines st st' ->
  nth_error lines (cur st) = Some l ->
  item_heading l = false ->
  exists seg,
    span lines (cur st + 1) (cur st') seg
    /\ Forall (fun x => summary_line x = true) seg
    /\ (current_section st <> "professional summary" -> seg = []).
Proof.
  intros H Hl Hi. unfold item_heading in Hi.
  assert (Hlen : cur st + 1 <= List.length lines).
  { assert (cur st < List.length lines)
      by (apply nth_error_Some; congruence).
    lia. }
  assert (Hone : exists seg,
             span lines (cur st + 1) (cur st + 1) seg
             /\ Forall (fun x => summary_line x = true) seg
             /\ (current_section st <> "professional summary" -> seg = [])).
  { exists []. split; [apply span_nil, Hlen |]. split; [constructor | auto]. }
  inversion H; subst; simpl in *; try exact Hone.
  - exfalso. congruence.
  - exists (take_while summary_line (skipn (i + 1) lines)).
    split; [eapply collect_summary_span; eauto |].
    split; [apply take_while_Forall |].
    intros Hs; exfalso; apply Hs; reflexivity.
Qed.

(** A turn at a line that is not a [### ] heading does not jump over a
    blank line. *)
Lemma step_stops_at_blank (lines : list string) (st st' : State)
  (l b : string) (k : nat) :
  step lines st st' ->
  nth_error lines (cur st) = Some l -> item_heading l = false ->
  nth_error lines k = Some b -> blank b = true ->
  cur st < k -> cur st' <= k.
Proof.
  intros H Hl Hi Hk Hb Hlt.
  destruct (step_plain _ _ _ _ H Hl Hi) as (seg & Hs & Hall & _).
  destruct (Nat.le_gt_cases (cur st') k) as [|Hgt]; auto.
  exfalso.
  rewrite (span_nth _ _ _ k _ Hs) in Hk by lia.
  apply nth_error_In in Hk.
  rewrite Forall_forall in Hall. apply Hall in Hk.
  unfold summary_line in Hk. rewrite Hb in Hk. discriminate.
Qed.

(** The turn at a [## ] line sets the section and nothing else. *)
Lemma step_at_section (lines : list string) (st st' : State) (s : string) :
  step lines st st' ->
  nth_error lines (cur st) = Some s -> section_heading s = true ->
  cur st' = cur st + 1
  /\ current_section st' = section_name s
  /\ data st' = data st.
Proof.
  intros H Hl Hs. unfold section_heading in Hs.
  pose proof (startswith_nonempty _ "## " ltac:(discriminate) Hs) as Hne.
  step_inv H;
    match goal with
    | Hn : nth_error lines _ = Some ?l |- _ =>
        assert (l = s) by congruence; subst l
    end;
    try (split; [reflexivity | split; reflexivity]);
    exfalso; try congruence.
  - match goal with
    | Hi : is_image_line _ = true |- _ =>
        apply image_not_section in Hi; congruence
    end.
  - match goal with
    | Hn : startswith _ "# " = true |- _ =>
        apply name_not_section in Hn; congruence
    end.
  - match goal with
    | Hb : bold_only _ = true |- _ =>
        unfold bold_only in Hb; apply andb_true_iff in Hb as [Hb _];
        apply bold_not_section in Hb; congruence
    end.
Qed.

(** The turn at a blank line moves to the next line. *)
Lemma step_at_blank (lines : list string) (st st' : State) (b : string) :
  step lines st st' ->
  nth_error lines (cur st) = Some b -> blank b = true ->
  cur st' = cur st + 1.
Proof.
  intros H Hl Hb. unfold blank in Hb.
  step_inv H;
    match goal with
    | Hn : nth_error lines _ = Some ?l |- _ =>
        assert (l = b) by congruence; subst l
    end;
    try reflexivity; exfalso; congruence.
Qed.
Lemma not_heading23_false (l : string) :
  not_heading23 l = true ->
  section_heading l = false /\ item_heading l = false.
Proof.
  unfold not_heading23. intros H.
  apply negb_true_iff, orb_false_iff in H. exact H.
Qed.

Lemma nearest_heading_None (pre : list string) :
  nearest_heading pre = None ->
  Forall (fun l => not_heading23 l = true) pre.
Proof.
  induction pre as [|l r IH]; simpl; [constructor |].
  destruct (nearest_heading r); [discriminate |].
  destruct (not_heading23 l) eqn:E; [| discriminate].
  intros _. constructor; auto.
Qed.

Lemma nearest_heading_Some (pre : list string) (s : string) :
  nearest_heading pre = Some s ->
  exists before mid,
    pre = before ++ s :: mid
    /\ not_heading23 s = false
    /\ Forall (fun l => not_heading23 l = true) mid.
Proof.
  induction pre as [|l r IH]; simpl; [discriminate |].
  destruct (nearest_heading r) as [s'|] eqn:E.
  - intros H; inversion H; subst.
    destruct (IH eq_refl) as (b & m & -> & Hs & Hm).
    exists (l :: b), m. auto.
  - destruct (not_heading23 l) eqn:El; [discriminate |].
    intros H; inversion H; subst.
    exists [], r. split; [reflexivity |]. split; [exact El |].
    apply nearest_heading_None, E.
Qed.

(** The walk over lines that hold no [## ] and no [### ] heading, from the
    start of the document. *)
Lemma walk_no_heading (lines pre rest : list string) (h : string) :
  lines = pre ++ h :: rest ->
  (forall l, In l pre -> name_heading l = false) ->
  Forall (fun l => not_heading23 l = true) pre ->
  forall st, steps lines (init_state lines) st ->
             List.length lines <= cur st ->
  exists st_k, steps lines st_k st
               /\ cur st_k = List.length pre /\ name (data st_k) = "".
Proof.
  intros El Hname Hpre st Hs Hend.
  rewrite Forall_forall in Hpre.
  set (P := fun st : State =>
              name (data st) = "" /\ current_section st = "").
  assert (Hlen : List.length pre < List.length lines).
  { rewrite El, length_app; simpl; lia. }
  destruct (steps_reach lines P (List.length pre)) with
    (st := init_state lines) (st_f := st)
    as (stk & Hk & [Hn Hsec] & Hcur); auto.
  - clear st Hs Hend. intros st st' [Hn Hsec] Hlt H.
    destruct (lt_nth_error lines (cur st)) as [l Hl]; [lia |].
    assert (Hin : In l pre).
    { rewrite El, nth_error_app1 in Hl by exact Hlt.
      eapply nth_error_In; eauto. }
    destruct (not_heading23_false _ (Hpre _ Hin)) as [H2 H3].
    split; [split |].
    + rewrite (step_name_kept _ _ _ _ H Hl (Hname _ Hin)). exact Hn.
    + rewrite (step_sets_section _ _ _ _ H Hl), H2. exact Hsec.
    + rewrite (step_one_line _ _ _ _ H Hl H3); [lia |].
      rewrite Hsec; discriminate.
  - split; reflexivity.
  - simpl; lia.
  - lia.
  - exists stk. auto.
Qed.
(** The walk up to a [## ] line and over the lines after it, which hold no
    [## ] and no [### ] heading; in the summary section the last of these
    lines is blank. *)
Lemma walk_after_section (lines before mid rest : list string)
  (s h : string) :
  lines = (before ++ s :: mid) ++ h :: rest ->
  (forall l, In l (before ++ s :: mid) -> name_heading l = false) ->
  section_heading s = true ->
  Forall (fun l => not_heading23 l = true) mid ->
  (section_name s = "professional summary" ->
   mid = [] \/ blank (last mid "") = true) ->
  forall st, steps lines (init_state lines) st ->
             List.length lines <= cur st ->
  exists st_k, steps lines st_k st
               /\ cur st_k = List.length (before ++ s :: mid)
               /\ name (data st_k) = "".
Proof.
  intros El Hname Hs Hmid Hsum st Hst Hend.
  rewrite Forall_forall in Hmid.
  set (j := List.length before).
  set (k := List.length (before ++ s :: mid)).
  assert (Ek : k = j + 1 + List.length mid).
  { unfold k, j. rewrite length_app. simpl. lia. }
  assert (Hlen : k < List.length lines).
  { rewrite El, length_app. fold k. simpl. lia. }
  assert (Hpre : forall i l, i < k -> nth_error lines i = Some l ->
                             In l (before ++ s :: mid)).
  { intros i l Hi Hl. rewrite El, nth_error_app1 in Hl by exact Hi.
    eapply nth_error_In; eauto. }
  assert (Hj : nth_error lines j = Some s).
  { rewrite El, <- app_assoc. unfold j.
    rewrite nth_error_app2, Nat.sub_diag by lia. reflexivity. }
  assert (Hm : forall i l, j < i -> i < k -> nth_error lines i = Some l ->
                           In l mid).
  { intros i l Hji Hik Hl.
    rewrite El, <- app_assoc in Hl.
    rewrite nth_error_app2 in Hl by (fold j; lia). fold j in Hl.
    replace (i - j) with (S (i - j - 1)) in Hl by lia. simpl in Hl.
    rewrite nth_error_app1 in Hl by lia.
    eapply nth_error_In; eauto. }
  (* up to the heading *)
  destruct (steps_reach lines (fun st => name (data st) = "") j) with
    (st := init_state lines) (st_f := st)
    as (stj & Hsj & Hnj & Hcj); auto.
  { intros st0 st1 Hn Hlt H.
    destruct (lt_nth_error lines (cur st0)) as [l Hl]; [lia |].
    split.
    - rewrite (step_name_kept _ _ _ _ H Hl); [exact Hn |].
      apply Hname. apply (Hpre (cur st0)); [lia | exact Hl].
    - eapply step_stops_at_section; eauto. }
  { simpl; lia. }
  { lia. }
  (* the heading and the lines after it *)
  set (P := fun st : State =>
              name (data st) = ""
              /\ (cur st = j
                  \/ (j < cur st /\ current_section st = section_name s))).
  destruct (steps_reach lines P k) with (st := stj) (st_f := st)
    as (stk & Hsk & [Hnk _] & Hck); auto.
  - intros st0 st1 [Hn Hc] Hlt H.
    destruct Hc as [Hc | [Hc Hsec]].
    + rewrite <- Hc in Hj.
      destruct (step_at_section _ _ _ _ H Hj Hs) as (E1 & E2 & E3).
      split; [split |].
      * rewrite E3; exact Hn.
      * right. split; [lia | exact E2].
      * lia.
    + destruct (lt_nth_error lines (cur st0)) as [l Hl]; [lia |].
      pose proof (Hm _ _ Hc Hlt Hl) as Hin.
      destruct (not_heading23_false _ (Hmid _ Hin)) as [H2 H3].
      assert (Hle : cur st0 < cur st1) by (apply step_bounds in H; lia).
      split; [split |].
      * rewrite (step_name_kept _ _ _ _ H Hl); [exact Hn |].
        apply Hname. apply (Hpre (cur st0)); [lia | exact Hl].
      * right. split; [lia |].
        rewrite (step_sets_section _ _ _ _ H Hl), H2. exact Hsec.
      * destruct (string_dec (section_name s) "professional summary")
          as [E | E].
        -- destruct (Hsum E) as [Hnil | Hb];
             [subst mid; destruct Hin |].
           assert (Hne : mid <> []) by (intros ->; destruct Hin).
           pose proof (app_removelast_last "" Hne) as Emid.
           assert (Hlast : nth_error lines (k - 1) = Some (last mid "")).
           { rewrite El, <- app_assoc. simpl.
             rewrite Emid at 1. rewrite <- app_assoc. simpl.
             change (before ++ s :: removelast mid
                       ++ last mid "" :: h :: rest)
               with (before ++ (s :: removelast mid)
                       ++ last mid "" :: h :: rest).
             rewrite app_assoc.
             assert (Hl' : List.length (before ++ s :: removelast mid)
                           = k - 1).
             { rewrite Ek. rewrite Emid at 2.
               rewrite !length_app. simpl. fold j. lia. }
             rewrite nth_error_app2, Hl', Nat.sub_diag by lia.
             reflexivity. }
           destruct (Nat.eq_dec (cur st0) (k - 1)) as [Ec | Ec].
           ++ rewrite Ec in Hl.
              assert (l = last mid "") by congruence. subst l.
              rewrite <- Ec in Hl.
              rewrite (step_at_blank _ _ _ _ H Hl Hb). lia.
           ++ assert (cur st1 <= k - 1); [| lia].
              eapply step_stops_at_blank; eauto. lia.
        -- rewrite (step_one_line _ _ _ _ H Hl H3); [lia |].
           rewrite Hsec. exact E.
  - split; [exact Hnj | left; exact Hcj].
  - lia.
  - lia.
  - exists stk. auto.
Qed.
Lemma last_after_cons (before mid : list string) (s d : string) :
  mid <> [] ->
  last (before ++ s :: mid) d = last mid d /\ In (last mid d) mid.
Proof.
  intros Hne.
  pose proof (app_removelast_last d Hne) as E.
  split.
  - rewrite E at 1.
    change (before ++ s :: removelast mid ++ [last mid d])
      with (before ++ (s :: removelast mid) ++ [last mid d]).
    rewrite app_assoc. apply last_last.
  - rewrite E at 2. apply in_or_app. right. left. reflexivity.
Qed.

(** The main loop reaches the line after [pre]; no name is set before a
    first [# ] line. *)
Lemma walk_to_next_line (lines pre rest : list string) (h : string) :
  lines = pre ++ h :: rest ->
  (forall l, In l pre -> name_heading l = false) ->
  leaves_next_line pre ->
  forall st, steps lines (init_state lines) st ->
             List.length lines <= cur st ->
  exists st_k, steps lines st_k st
               /\ cur st_k = List.length pre /\ name (data st_k) = "".
Proof.
  intros El Hname Hfree st Hst Hend.
  unfold leaves_next_line in Hfree.
  destruct (nearest_heading pre) as [s|] eqn:E.
  - destruct Hfree as [Hs Hsum].
    apply nearest_heading_Some in E as (before & mid & -> & _ & Hmid).
    eapply walk_after_section; eauto.
    intros Es. destruct mid as [|m mid']; [left; reflexivity | right].
    destruct (last_after_cons before (m :: mid') s "" ltac:(discriminate))
      as [El' Hin].
    rewrite El' in Hsum.
    destruct (Hsum Es) as [Hh | Hb]; [| exact Hb].
    rewrite Forall_forall in Hmid.
    destruct (not_heading23_false _ (Hmid _ Hin)) as [H2 _].
    congruence.
  - eapply walk_no_heading; eauto.
    apply nearest_heading_None, E.
Qed.

(** C9, as amended.  The name is the trimmed remainder of the first [# ]
    line when the nearest [## ] or [### ] line before it, if there is one,
    is a [## ] line and, if that line opens the professional summary, the
    [# ] line comes right after it or after a blank line; the name is empty
    when the text has no [# ] line. *)
Theorem C9_name_first_heading_reached (md_text : string) :
  exists d : Data,
    parse_markdown md_text = Ok d
    /\ (forall pre h rest,
          splitlines md_text = pre ++ h :: rest ->
          (forall l, In l pre -> name_heading l = false) ->
          name_heading h = true ->
          leaves_next_line pre ->
          name d = strip (drop 2 (strip h)))
    /\ ((forall l, In l (splitlines md_text) -> name_heading l = false) ->
        name d = "").
Proof.
  unfold parse_markdown.
  destruct (parse_lines_steps (splitlines md_text)) as (st & Hp & Hs & Hn).
  exists (data st). split; [exact Hp |]. split.
  - intros pre h rest El Hpre Hh Hfree.
    destruct (walk_to_next_line _ _ _ _ El Hpre Hfree st Hs Hn)
      as (stk & Hk & Hcur & Hname).
    assert (Hl : nth_error (splitlines md_text) (cur stk) = Some h).
    { rewrite Hcur, El, nth_error_app2, Nat.sub_diag by lia. reflexivity. }
    assert (Hlen : List.length pre < List.length (splitlines md_text)).
    { rewrite El, length_app; simpl; lia. }
    unfold name_heading in Hh.
    inversion Hk as [| a st1 b H1 H2]; subst; [lia |].
    pose proof (step_at_name_heading _ _ _ _ H1 Hl Hh Hname) as E.
    rewrite (name_fixed _ _ _ H2); [exact E |].
    rewrite E. apply name_nonempty, Hh.
  - intros H. eapply default_name; eauto.
Qed.

(** A single [# Jane Doe] line gives the name [Jane Doe]; a [# ] line
    after an Item and a later [## ] line, and one after the heading of the
    professional summary and a blank line, give the name as well. *)
Lemma C9_witness :
  (exists d : Data,
      parse_markdown "# Jane Doe" = Ok d /\ name d = "Jane Doe")
  /\ (exists d : Data,
         parse_markdown ("### A" ++ nl ++ "- x" ++ nl ++ "## S" ++ nl
                         ++ "# Jane")%string = Ok d
         /\ name d = "Jane")
  /\ (exists d : Data,
         parse_markdown ("## Professional Summary" ++ nl ++ nl
                         ++ "# Jane" ++ nl ++ "bar")%string = Ok d
         /\ name d = "Jane").
Proof.
  split; [| split].
  - destruct (C9_name_first_heading_reached "# Jane Doe")
      as (d & Hd & Hfirst & _).
    exists d. split; [exact Hd |].
    apply (Hfirst [] "# Jane Doe" []).
    + reflexivity.
    + intros l [].
    + reflexivity.
    + exact I.
  - destruct (C9_name_first_heading_reached
                ("### A" ++ nl ++ "- x" ++ nl ++ "## S" ++ nl
                 ++ "# Jane")%string)
      as (d & Hd & Hfirst & _).
    exists d. split; [exact Hd |].
    apply (Hfirst ["### A"; "- x"; "## S"] "# Jane" []).
    + reflexivity.
    + intros l [<- | [<- | [<- | []]]]; reflexivity.
    + reflexivity.
    + vm_compute. split; [reflexivity | intros E; discriminate E].
  - destruct (C9_name_first_heading_reached
                ("## Professional Summary" ++ nl ++ nl
                 ++ "# Jane" ++ nl ++ "bar")%string)
      as (d & Hd & Hfirst & _).
    exists d. split; [exact Hd |].
    apply (Hfirst ["## Professional Summary"; ""] "# Jane" ["bar"]).
    + reflexivity.
    + intros l [<- | [<- | []]]; reflexivity.
    + reflexivity.
    + vm_compute. split; [reflexivity | intros _; right; reflexivity].
Defined.

(** C9 as stated fails: a [# ] line after a [### ] line is taken by the
    Item, and a [# ] line in a run of summary lines is taken by the
    summary; in both the name stays empty. *)
Lemma C9_counterexample :
  (let md_text := ("### A" ++ nl ++ "# Jane Doe")%string in
   claimed_name (splitlines md_text) = "Jane Doe"
   /\ exists d, parse_markdown md_text = Ok d /\ name d = "")
  /\ (let md_text := ("## Professional Summary" ++ nl ++ "Engineer."
                      ++ nl ++ "# Jane Doe")%string in
      claimed_name (splitlines md_text) = "Jane Doe"
      /\ exists d, parse_markdown md_text = Ok d
                   /\ name d = "" /\ summary d = "Engineer. # Jane Doe").
Proof.
  split.
  - split; [reflexivity |]. eexists; split; reflexivity.
  - split; [reflexivity |]. eexists; split; [| split]; reflexivity.
Qed.

(* ================================================================== *)
(** * Occurrences in a text *)
(* ================================================================== *)

Local Open Scope string_scope.

Lemma infix_refl (s : string) : infix s s.
Proof. exists "", "". simpl. rewrite append_nil_r. reflexivity. Qed.

Lemma infix_app_r (p a s : string) : infix p s -> infix p (a ++ s).
Proof.
  intros (x & y & ->). exists (a ++ x), y. rewrite append_assoc.
  reflexivity.
Qed.

Lemma infix_app_l (p s b : string) : infix p s -> infix p (s ++ b).
Proof.
  intros (x & y & ->). exists x, (y ++ b).
  rewrite !append_assoc. reflexivity.
Qed.

Lemma infix_trans (p q s : string) : infix p q -> infix q s -> infix p s.
Proof.
  intros (x & y & ->) (x' & y' & ->).
  exists (x' ++ x), (y ++ y'). rewrite !append_assoc. reflexivity.
Qed.

Lemma startswith_app (p r : string) : startswith (p ++ r) p = true.
Proof.
  induction p as [|a p IH]; simpl.
  - destruct r; reflexivity.
  - unfold startswith; fold startswith.
    rewrite Ascii.eqb_refl, IH. reflexivity.
Qed.

Lemma startswith_true_iff (s p : string) :
  startswith s p = true <-> exists r, s = p ++ r.
Proof.
  split.
  - intros H. exists (drop (String.length p) s).
    apply startswith_app_inv, H.
  - intros (r & ->). apply startswith_app.
Qed.

Lemma contains_infix (s p : string) : contains s p = true -> infix p s.
Proof.
  induction s as [|c s IH]; unfold contains; fold contains; intros H.
  - rewrite orb_false_r in H. apply startswith_true_iff in H as (r & E).
    exists "", r. exact E.
  - apply orb_true_iff in H as [H | H].
    + apply startswith_true_iff in H as (r & E). exists "", r. exact E.
    + apply (infix_app_r p (String c "") s). apply IH, H.
Qed.

Lemma count_sub_infix (s p : string) : infix p s -> 0 < count_sub s p.
Proof.
  intros (a & b & ->). induction a as [|c a IH]; simpl.
  - destruct (p ++ b) eqn:E; unfold count_sub; fold count_sub.
    + rewrite <- E, startswith_app. lia.
    + rewrite <- E, startswith_app. lia.
  - lia.
Qed.

Lemma length_append (a b : string) :
  String.length (a ++ b) = String.length a + String.length b.
Proof. induction a; simpl; congruence. Qed.

Lemma startswith_length (s p : string) :
  startswith s p = true -> String.length p <= String.length s.
Proof.
  intros H. apply startswith_true_iff in H as (r & ->).
  rewrite length_append. lia.
Qed.

(** A text that begins [p] and is shorter than [p] once [b] is cut off is
    itself a beginning of [p]. *)
Lemma startswith_app_short (y b p : string) :
  startswith (y ++ b) p = true ->
  String.length y < String.length p ->
  startswith p y = true.
Proof.
  revert p; induction y as [|c y IH]; intros p H Hlen.
  - destruct p; reflexivity.
  - destruct p as [|a p]; [simpl in Hlen; lia |].
    simpl in H. unfold startswith in H; fold startswith in H.
    apply andb_true_iff in H as [H1 H2].
    apply Ascii.eqb_eq in H1. subst a.
    unfold startswith; fold startswith.
    rewrite Ascii.eqb_refl. simpl.
    apply IH; [exact H2 | simpl in Hlen; lia].
Qed.

Lemma startswith_app_long (y b p : string) :
  String.length p <= String.length y ->
  startswith (y ++ b) p = startswith y p.
Proof.
  revert p; induction y as [|c y IH]; intros p Hlen.
  - destruct p; [| simpl in Hlen; lia]. destruct b; reflexivity.
  - destruct p as [|a p]; [reflexivity |].
    simpl. unfold startswith; fold startswith.
    rewrite IH by (simpl in Hlen; lia). reflexivity.
Qed.

Lemma no_partial_tail (p : string) (c : ascii) (a : string) :
  no_partial p (String c a) -> no_partial p a.
Proof.
  intros H x y E Hy Hlen. apply (H (String c x) y); auto.
  simpl. rewrite E. reflexivity.
Qed.

Lemma count_sub_app (p a b : string) :
  p <> "" -> no_partial p a ->
  count_sub (a ++ b) p = count_sub a p + count_sub b p.
Proof.
  intros Hp. induction a as [|c a IH]; intros Hnp.
  - simpl String.append. destruct p; [congruence | reflexivity].
  - simpl String.append. unfold count_sub; fold count_sub.
    rewrite IH by (eapply no_partial_tail; eauto).
    assert (E : startswith (String c (a ++ b)) p
                = startswith (String c a) p).
    { destruct (Nat.le_gt_cases (String.length p)
                  (String.length (String c a))) as [Hl | Hl].
      - apply (startswith_app_long (String c a) b p Hl).
      - destruct (startswith (String c (a ++ b)) p) eqn:E1.
        + apply (startswith_app_short (String c a) b p) in E1; [| exact Hl].
          rewrite (Hnp "" (String c a)) in E1;
            [discriminate | reflexivity | discriminate | exact Hl].
        + destruct (startswith (String c a) p) eqn:E2; [| reflexivity].
          apply startswith_length in E2. lia. }
    rewrite E. lia.
Qed.

Lemma no_partial_app (p a b : string) :
  no_partial p a -> no_partial p b -> no_partial p (a ++ b).
Proof.
  revert b; induction a as [|c a IH]; intros b Ha Hb; [exact Hb |].
  intros x y E Hy Hlen.
  destruct x as [|c' x].
  - simpl in E. subst y.
    match goal with |- ?t = false => destruct t eqn:E1 end; [| reflexivity].
    exfalso.
    apply startswith_true_iff in E1 as (r & E1).
    assert (E2 : startswith p (String c a) = true).
    { rewrite E1. change (String c (a ++ b)) with (String c a ++ b).
      rewrite append_assoc. apply startswith_app. }
    rewrite (Ha "" (String c a)) in E2;
      [discriminate | reflexivity | discriminate |].
    simpl in Hlen. rewrite length_append in Hlen. simpl. lia.
  - simpl in E. inversion E; subst c'.
    apply (IH b (no_partial_tail _ _ _ Ha) Hb x y); auto.
Qed.

Lemma clean_app (p a b : string) :
  p <> "" -> clean p a -> clean p b -> clean p (a ++ b).
Proof.
  intros Hp [Ca Na] [Cb Nb]. split.
  - rewrite count_sub_app by auto. lia.
  - apply no_partial_app; auto.
Qed.

Lemma no_partial_b_sound (p a : string) :
  no_partial_b p a = true -> no_partial p a.
Proof.
  induction a as [|c a IH]; intros H x y E Hy Hlen.
  - destruct x; [| discriminate]. simpl in E. congruence.
  - simpl in H. apply andb_true_iff in H as [H1 H2].
    destruct x as [|c' x].
    + simpl in E. subst y.
      simpl in Hlen. apply Nat.ltb_lt in Hlen.
      simpl String.length in H1.
      rewrite Hlen in H1. apply negb_true_iff in H1. exact H1.
    + simpl in E. inversion E; subst.
      apply (IH H2 x y); auto.
Qed.

Lemma clean_b_sound (p a : string) : clean_b p a = true -> clean p a.
Proof.
  unfold clean_b. intros H. apply andb_true_iff in H as [H1 H2].
  split; [apply Nat.eqb_eq, H1 | apply no_partial_b_sound, H2].
Qed.

Lemma clean_not_infix (p s : string) : clean p s -> ~ infix p s.
Proof.
  intros [C _] H. apply count_sub_infix in H. lia.
Qed.
(* ================================================================== *)
(** * Escaped text *)
(* ================================================================== *)

Lemma escape_app (a b : string) : escape (a ++ b) = escape a ++ escape b.
Proof.
  unfold escape. induction a as [|c a IH]; simpl; [reflexivity |].
  fold escape in *. rewrite IH, append_assoc. reflexivity.
Qed.

Lemma all_chars_app (q : ascii -> bool) (a b : string) :
  all_chars q (a ++ b) = all_chars q a && all_chars q b.
Proof.
  induction a as [|c a IH]; simpl; [reflexivity |].
  rewrite IH, andb_assoc. reflexivity.
Qed.

(** [html.escape] leaves none of [<], [>] and the two quotes. *)
Lemma escape_not_markup (s : string) : all_chars not_markup (escape s) = true.
Proof.
  unfold escape. induction s as [|c s IH]; [reflexivity |].
  fold escape in *. rewrite all_chars_app, IH, andb_true_r.
  unfold escape_char.
  destruct (Ascii.eqb c "&"); [reflexivity |].
  destruct (Ascii.eqb c "<") eqn:E1; [reflexivity |].
  destruct (Ascii.eqb c ">") eqn:E2; [reflexivity |].
  destruct (Ascii.eqb c (ascii_of_nat 34)) eqn:E3; [reflexivity |].
  destruct (Ascii.eqb c "'") eqn:E4; [reflexivity |].
  simpl. unfold not_markup. rewrite E1, E2, E3, E4. reflexivity.
Qed.

Lemma all_chars_impl (q r : ascii -> bool) (s : string) :
  (forall c, q c = true -> r c = true) ->
  all_chars q s = true -> all_chars r s = true.
Proof.
  intros Hqr. induction s as [|c s IH]; simpl; [reflexivity |].
  intros H. apply andb_true_iff in H as [H1 H2].
  rewrite (Hqr _ H1), IH; auto.
Qed.

(** A text without the first character of [p] holds no occurrence of [p]
    and no beginning of one. *)
Lemma clean_first_char (a : ascii) (r s : string) :
  all_chars (fun c => negb (Ascii.eqb a c)) s = true ->
  clean (String a r) s.
Proof.
  intros H. split.
  - induction s as [|c s IH]; [reflexivity |].
    simpl in H. apply andb_true_iff in H as [H1 H2].
    unfold count_sub; fold count_sub. rewrite (IH H2).
    unfold startswith; fold startswith.
    apply negb_true_iff in H1. rewrite H1. reflexivity.
  - intros x y E Hy _. subst s.
    rewrite all_chars_app in H. apply andb_true_iff in H as [_ H].
    destruct y as [|c y]; [congruence |].
    simpl in H. apply andb_true_iff in H as [H _].
    apply negb_true_iff in H. rewrite Ascii.eqb_sym in H.
    unfold startswith; fold startswith. rewrite H. reflexivity.
Qed.

Lemma clean_empty (p : string) : p <> "" -> clean p "".
Proof.
  intros Hp. split.
  - destruct p; [congruence | reflexivity].
  - intros x y E Hy. destruct x; simpl in E; [congruence | discriminate].
Qed.

Lemma concat_empty_cons (a : string) (l : list string) :
  String.concat "" (a :: l) = a ++ String.concat "" l.
Proof.
  destruct l as [|b l]; simpl; [rewrite append_nil_r |]; reflexivity.
Qed.

Lemma clean_concat (p : string) (l : list string) :
  p <> "" -> Forall (clean p) l -> clean p (String.concat "" l).
Proof.
  intros Hp H. induction H as [|a l Ha _ IH].
  - apply clean_empty, Hp.
  - rewrite concat_empty_cons. apply clean_app; auto.
Qed.

Lemma clean_join (p sep : string) (l : list string) :
  p <> "" -> clean p sep -> Forall (clean p) l -> clean p (join sep l).
Proof.
  intros Hp Hsep H. unfold join. induction H as [|a l Ha Hl IH].
  - apply clean_empty, Hp.
  - destruct l as [|b l]; [exact Ha |].
    change (String.concat sep (a :: b :: l))
      with (a ++ sep ++ String.concat sep (b :: l)).
    apply clean_app; auto. apply clean_app; auto.
Qed.

Lemma infix_concat (x : string) (l : list string) :
  In x l -> infix x (String.concat "" l).
Proof.
  induction l as [|a l IH]; intros H; [destruct H |].
  rewrite concat_empty_cons. destruct H as [-> | H].
  - apply infix_app_l, infix_refl.
  - apply infix_app_r, IH, H.
Qed.

Lemma infix_join (x sep : string) (l : list string) :
  In x l -> infix x (join sep l).
Proof.
  unfold join. induction l as [|a l IH]; intros H; [destruct H |].
  destruct l as [|b l].
  - destruct H as [-> | []]. apply infix_refl.
  - change (String.concat sep (a :: b :: l))
      with (a ++ sep ++ String.concat sep (b :: l)).
    destruct H as [-> | H].
    + apply infix_app_l, infix_refl.
    + apply infix_app_r, infix_app_r, IH, H.
Qed.
(* ================================================================== *)
(** * Texts that the parts of the document do not hold *)
(* ================================================================== *)

Section Clean.

(** A text [p] that begins with [<] and that no literal text of the lists
    and blocks holds. *)
Variable p : string.
Hypothesis p_tag : startswith p "<" = true.
Hypothesis p_blocks : forallb (clean_b p) block_pieces = true.

Lemma p_nonempty : p <> "".
Proof. intros E. rewrite E in p_tag. discriminate. Qed.

Lemma clean_block (x : string) : In x block_pieces -> clean p x.
Proof.
  intros H. apply clean_b_sound.
  exact (proj1 (forallb_forall _ _) p_blocks x H).
Qed.

Lemma clean_escape (v : string) : clean p (escape v).
Proof.
  destruct (startswith_cons_inv _ _ _ p_tag) as (r & E & _).
  rewrite E. apply clean_first_char.
  eapply all_chars_impl; [| apply escape_not_markup].
  intros c H. unfold not_markup in H.
  apply andb_true_iff in H as [H _]. apply andb_true_iff in H as [H _].
  apply andb_true_iff in H as [H _].
  rewrite Ascii.eqb_sym. exact H.
Qed.

Lemma clean_wrapped (a v b : string) :
  In a block_pieces -> In b block_pieces -> clean p (a ++ escape v ++ b).
Proof.
  intros Ha Hb.
  apply clean_app; [apply p_nonempty | apply clean_block, Ha |].
  apply clean_app; [apply p_nonempty | apply clean_escape |].
  apply clean_block, Hb.
Qed.

Lemma clean_concat_wrapped (a b : string) (l : list string) :
  In a block_pieces -> In b block_pieces ->
  clean p (String.concat "" (map (fun x => a ++ escape x ++ b) l)).
Proof.
  intros Ha Hb. apply clean_concat; [apply p_nonempty |].
  apply Forall_forall. intros x Hx.
  apply in_map_iff in Hx as (v & <- & _). apply clean_wrapped; auto.
Qed.

Lemma clean_li (l : list string) : clean p (_li l).
Proof. apply clean_concat_wrapped; simpl; tauto. Qed.

Lemma clean_contact_list (d : Data) : clean p (contact_list d).
Proof. apply clean_concat_wrapped; simpl; tauto. Qed.

Lemma clean_fit_boxes (d : Data) : clean p (fit_boxes d).
Proof. apply clean_concat_wrapped; simpl; tauto. Qed.

Lemma clean_headline_right (t : string) : clean p (headline_right t).
Proof.
  unfold headline_right. destruct (negb (is_empty t)).
  - apply clean_wrapped; simpl; tauto.
  - apply clean_empty, p_nonempty.
Qed.

Lemma clean_item_block (item : Item) : clean p (item_block item).
Proof.
  unfold item_block.
  repeat (apply clean_app; [apply p_nonempty | |]);
    try apply clean_escape; try apply clean_li;
    try (apply clean_block; simpl; tauto).
  destruct (negb (is_empty (subtitle item))).
  - apply clean_wrapped; simpl; tauto.
  - apply clean_empty, p_nonempty.
Qed.

Lemma clean_items (l : list Item) : clean p (_items l).
Proof.
  unfold _items. apply clean_join; [apply p_nonempty | |].
  - apply clean_block; simpl; tauto.
  - apply Forall_forall. intros x Hx.
    apply in_map_iff in Hx as (v & <- & _). apply clean_item_block.
Qed.

End Clean.
(** The document holds no text [p] that begins with [<] and that none of
    its literal texts holds. *)
Lemma clean_build_html (p : string) (d : Data)
  (profile_image target_label : string) :
  startswith p "<" = true ->
  forallb (clean_b p) block_pieces = true ->
  forallb (clean_b p) document_pieces = true ->
  clean p (build_html d profile_image target_label).
Proof.
  intros Htag Hb Hd.
  pose proof (p_nonempty p Htag) as Hp.
  assert (Hdoc : forall x, In x document_pieces -> clean p x).
  { intros x Hx. apply clean_b_sound.
    exact (proj1 (forallb_forall _ _) Hd x Hx). }
  unfold build_html.
  repeat (apply clean_app; [exact Hp | |]);
    try (apply clean_escape; assumption);
    try (apply clean_li; assumption);
    try (apply clean_contact_list; assumption);
    try (apply clean_headline_right; assumption);
    try (apply clean_items; assumption);
    try (apply clean_fit_boxes; assumption);
    apply Hdoc; simpl; tauto.
Qed.

(** The parts of the document before and after the literal text that
    holds the headline. *)
Lemma clean_before_headline (p : string) (d : Data) (profile_image : string) :
  startswith p "<" = true ->
  forallb (clean_b p) block_pieces = true ->
  forallb (clean_b p)
    [tpl_head; tpl_style; tpl_img_alt; tpl_name; tpl_role; tpl_contacts;
     tpl_skills]%list = true ->
  clean p (tpl_head ++ escape (name d)
           ++ tpl_style ++ escape profile_image
           ++ tpl_img_alt ++ escape (name d)
           ++ tpl_name ++ escape (name d)
           ++ tpl_role ++ escape (role d)
           ++ tpl_contacts ++ contact_list d
           ++ tpl_skills ++ _li (firstn 12 (skills d))).
Proof.
  intros Htag Hb Hd.
  pose proof (p_nonempty p Htag) as Hp.
  assert (Hdoc : forall x, In x [tpl_head; tpl_style; tpl_img_alt; tpl_name;
                                 tpl_role; tpl_contacts; tpl_skills]%list ->
                           clean p x).
  { intros x Hx. apply clean_b_sound.
    exact (proj1 (forallb_forall _ _) Hd x Hx). }
  repeat (apply clean_app; [exact Hp | |]);
    try (apply clean_escape; assumption);
    try (apply clean_li; assumption);
    try (apply clean_contact_list; assumption);
    apply Hdoc; simpl; tauto.
Qed.

Lemma clean_after_headline (p : string) (d : Data) (target_label : string) :
  startswith p "<" = true ->
  forallb (clean_b p) block_pieces = true ->
  forallb (clean_b p)
    [tpl_summary; tpl_experience; tpl_projects; tpl_fit; tpl_tail]%list
  = true ->
  clean p (headline_right target_label
           ++ tpl_summary ++ escape (summary d)
           ++ tpl_experience ++ _items (experience d)
           ++ tpl_projects ++ _items (projects d)
           ++ tpl_fit ++ fit_boxes d
           ++ tpl_tail).
Proof.
  intros Htag Hb Hd.
  pose proof (p_nonempty p Htag) as Hp.
  assert (Hdoc : forall x, In x [tpl_summary; tpl_experience; tpl_projects;
                                 tpl_fit; tpl_tail]%list ->
                           clean p x).
  { intros x Hx. apply clean_b_sound.
    exact (proj1 (forallb_forall _ _) Hd x Hx). }
  repeat (apply clean_app; [exact Hp | |]);
    try (apply clean_escape; assumption);
    try (apply clean_headline_right; assumption);
    try (apply clean_items; assumption);
    try (apply clean_fit_boxes; assumption);
    apply Hdoc; simpl; tauto.
Qed.

(** The document around the literal text that holds the headline. *)
Lemma build_html_headline (d : Data) (profile_image target_label : string) :
  build_html d profile_image target_label
  = (tpl_head ++ escape (name d)
     ++ tpl_style ++ escape profile_image
     ++ tpl_img_alt ++ escape (name d)
     ++ tpl_name ++ escape (name d)
     ++ tpl_role ++ escape (role d)
     ++ tpl_contacts ++ contact_list d
     ++ tpl_skills ++ _li (firstn 12 (skills d)))
    ++ tpl_headline
    ++ (headline_right target_label
        ++ tpl_summary ++ escape (summary d)
        ++ tpl_experience ++ _items (experience d)
        ++ tpl_projects ++ _items (projects d)
        ++ tpl_fit ++ fit_boxes d
        ++ tpl_tail).
Proof. unfold build_html. rewrite !append_assoc. reflexivity. Qed.

(** C10.  Whatever the record, the image and the label are, the document
    holds the opening of the main column with the [h1] element
    [iOS Engineer Resume], and it holds no other [h1] element. *)
Theorem C10_fixed_headline (d : Data) (profile_image target_label : string) :
  infix main_headline (build_html d profile_image target_label)
  /\ count_sub (build_html d profile_image target_label) "<h1" = 1.
Proof.
  rewrite build_html_headline.
  assert (Hp : "<h1" <> "") by discriminate.
  pose proof (clean_before_headline "<h1" d profile_image eq_refl
                ltac:(vm_compute; reflexivity)
                ltac:(vm_compute; reflexivity)) as [Ca Na].
  pose proof (clean_after_headline "<h1" d target_label eq_refl
                ltac:(vm_compute; reflexivity)
                ltac:(vm_compute; reflexivity)) as [Cb _].
  split.
  - apply infix_app_r, infix_app_l.
    apply contains_infix. vm_compute. reflexivity.
  - rewrite (count_sub_app _ _ _ Hp Na).
    rewrite (count_sub_app "<h1" tpl_headline);
      [| exact Hp | apply no_partial_b_sound; vm_compute; reflexivity].
    rewrite Ca, Cb. vm_compute. reflexivity.
Qed.
(* ================================================================== *)
(** * The places of the interpolated values *)
(* ================================================================== *)

Lemma take_drop (k : nat) (s : string) : take k s ++ drop k s = s.
Proof.
  revert s; induction k as [|k IH]; intros [|c s]; simpl; auto.
  rewrite IH. reflexivity.
Qed.

Lemma endswith_split (s p : string) :
  endswith s p = true -> exists x, s = x ++ p.
Proof.
  unfold endswith. intros H. apply andb_true_iff in H as [_ H].
  apply String.eqb_eq in H.
  exists (take (String.length s - String.length p) s).
  rewrite <- H at 2. symmetry. apply take_drop.
Qed.

(** A value between the end of the literal text before it and the
    beginning of the literal text after it. *)
Lemma infix_slot (A B Y pre post v : string) :
  endswith A pre = true -> startswith B post = true ->
  infix (pre ++ v ++ post) (A ++ v ++ B ++ Y).
Proof.
  intros HA HB.
  apply endswith_split in HA as (x & ->).
  apply startswith_true_iff in HB as (y & ->).
  exists x, (y ++ Y). rewrite !append_assoc. reflexivity.
Qed.

Lemma infix_slot_end (A B pre post v : string) :
  endswith A pre = true -> startswith B post = true ->
  infix (pre ++ v ++ post) (A ++ v ++ B).
Proof.
  intros HA HB. rewrite <- (append_nil_r B).
  apply infix_slot; assumption.
Qed.

(** The photo element holds the escaped image it is given. *)
Lemma photo_src (d : Data) (profile_image target_label : string) :
  infix (photo_src_open ++ escape profile_image ++ tpl_img_alt)
        (build_html d profile_image target_label).
Proof.
  unfold build_html. do 2 apply infix_app_r.
  apply infix_slot; vm_compute; reflexivity.
Qed.

Lemma or_else_empty_r (a : string) : or_else a "" = a.
Proof. destruct a; reflexivity. Qed.

(** Lines 255-257: the option when it is given and not empty, else the
    image of the text when it is not empty, else the placeholder. *)
Lemma choose_profile_image_cases (arg : option string) (d : Data) :
  choose_profile_image arg d
  = match arg with
    | Some (String c a) => String c a
    | _ => match image_from_md d with
           | String c m => String c m
           | EmptyString => placeholder_image
           end
    end.
Proof.
  unfold choose_profile_image. rewrite or_else_empty_r.
  destruct arg as [[|c a]|]; simpl; destruct (image_from_md d); reflexivity.
Qed.

Lemma main_html_Ok (md_text : string) (arg : option string)
  (target_label : string) :
  exists d,
    parse_markdown md_text = Ok d
    /\ main_html md_text arg target_label
       = Ok (build_html d (choose_profile_image arg d) target_label).
Proof.
  unfold main_html, parse_markdown.
  destruct (parse_lines_steps (splitlines md_text)) as (st & Hp & _).
  exists (data st). rewrite Hp. split; reflexivity.
Qed.

(** C8, as amended.  The document that [main] writes has the placeholder,
    escaped, as the [src] of its photo element when the option is absent or
    empty and the text gives no image; [build_html] writes the escaped
    image it is given, the empty one too. *)
Theorem C8_placeholder_in_main (md_text : string) (arg : option string)
  (target_label : string) :
  (exists d out,
      parse_markdown md_text = Ok d
      /\ main_html md_text arg target_label = Ok out
      /\ ((arg = None \/ arg = Some "") -> image_from_md d = "" ->
          infix (photo_src_open
                 ++ "https://dummyimage.com/400x400/e6eef7/7f8fa3.jpg&amp;text=Profile"
                 ++ tpl_img_alt) out))
  /\ (forall d profile_image,
         infix (photo_src_open ++ escape profile_image ++ tpl_img_alt)
               (build_html d profile_image target_label)).
Proof.
  split; [| intros; apply photo_src].
  destruct (main_html_Ok md_text arg target_label) as (d & Hd & Hm).
  exists d, (build_html d (choose_profile_image arg d) target_label).
  split; [exact Hd |]. split; [exact Hm |].
  intros Harg Himg.
  assert (E : choose_profile_image arg d = placeholder_image).
  { rewrite choose_profile_image_cases, Himg.
    destruct Harg as [-> | ->]; reflexivity. }
  rewrite E.
  change "https://dummyimage.com/400x400/e6eef7/7f8fa3.jpg&amp;text=Profile"
    with (escape placeholder_image).
  apply photo_src.
Qed.

Lemma C8_witness :
  exists out,
    main_html "# Jane Doe" None "" = Ok out
    /\ infix (photo_src_open
              ++ "https://dummyimage.com/400x400/e6eef7/7f8fa3.jpg&amp;text=Profile"
              ++ tpl_img_alt) out.
Proof.
  destruct (C8_placeholder_in_main "# Jane Doe" None "")
    as [(d & out & Hd & Hm & H) _].
  exists out. split; [exact Hm |].
  apply H; [left; reflexivity |].
  vm_compute in Hd. inversion Hd; subst. reflexivity.
Defined.

(** C8 as stated fails: [build_html] with an empty image writes an empty
    [src], and the placeholder is nowhere in the document. *)
Lemma C8_counterexample :
  infix (with_dquotes "<div class=`photo`><img src=`` alt=`")
        (build_html empty_data "" "")
  /\ ~ infix "dummyimage.com" (build_html empty_data "" "").
Proof.
  split.
  - apply contains_infix. vm_compute. reflexivity.
  - intros H. apply count_sub_infix in H. vm_compute in H. lia.
Qed.
(* ================================================================== *)
(** * C2: the values of the document are escaped *)
(* ================================================================== *)

Lemma infix_concat_map (f : string -> string) (x : string)
  (l : list string) :
  In x l -> infix (f x) (String.concat "" (map f l)).
Proof. intros H. apply infix_concat, in_map, H. Qed.

(** The places of the values of an Item in its block. *)
Lemma item_block_slots (item : Item) :
  infix (with_dquotes "<div class=`title`>" ++ escape (title item)
         ++ "</div>") (item_block item)
  /\ infix (with_dquotes "<div class=`meta`>" ++ escape (meta item)
            ++ "</div>") (item_block item)
  /\ (subtitle item <> "" ->
      infix ("<p class='sub'>" ++ escape (subtitle item) ++ "</p>")
            (item_block item))
  /\ (forall b, In b (bullets item) ->
                infix ("<li>" ++ escape b ++ "</li>") (item_block item)).
Proof.
  unfold item_block. split; [| split; [| split]].
  - apply infix_slot; vm_compute; reflexivity.
  - do 2 apply infix_app_r. apply infix_slot; vm_compute; reflexivity.
  - intros Hs. apply is_empty_false in Hs. rewrite Hs.
    do 5 apply infix_app_r. apply infix_app_l, infix_refl.
  - intros b Hb. do 7 apply infix_app_r. apply infix_app_l.
    unfold _li.
    apply (infix_concat_map (fun x => "<li>" ++ escape x ++ "</li>")), Hb.
Qed.

Lemma item_block_in_items (item : Item) (l : list Item) :
  In item l -> infix (item_block item) (_items l).
Proof. intros H. unfold _items. apply infix_join, in_map, H. Qed.

Lemma items_in_document (d : Data) (profile_image target_label : string)
  (item : Item) :
  In item (experience d) \/ In item (projects d) ->
  infix (item_block item) (build_html d profile_image target_label).
Proof.
  intros [H | H]; apply (infix_trans _ _ _ (item_block_in_items _ _ H));
    unfold build_html.
  - do 19 apply infix_app_r. apply infix_app_l, infix_refl.
  - do 21 apply infix_app_r. apply infix_app_l, infix_refl.
Qed.

Lemma escape_infix (p s : string) : infix p s -> infix (escape p) (escape s).
Proof.
  intros (a & b & ->). exists (escape a), (escape b).
  rewrite !escape_app. reflexivity.
Qed.
(** C2.  Each value that [build_html] puts in the document stands there
    escaped, between the markup of its place, which is not escaped: the
    name (three times), the image, the role, the first four contacts, the
    first twelve skills, the label, the summary, the title, meta, subtitle
    and bullets of every Item and the first four fit entries.  An escaped
    value holds none of [<], [>] and the quotes, [&] and these four are
    written as entities; a name that holds [<script>] gives a document that
    holds [&lt;script&gt;], and no document holds [<script>]. *)
Theorem C2_values_escaped (d : Data) (profile_image target_label : string) :
  let out := build_html d profile_image target_label in
  infix ("<title>" ++ escape (name d) ++ " - Resume</title>") out
  /\ infix (photo_src_open ++ escape profile_image ++ tpl_img_alt) out
  /\ infix (tpl_img_alt ++ escape (name d) ++ with_dquotes "` /></div>") out
  /\ infix (with_dquotes "<h2 class=`name`>" ++ escape (name d) ++ "</h2>")
           out
  /\ infix (with_dquotes "<p class=`role`>" ++ escape (role d) ++ "</p>") out
  /\ (forall c, In c (firstn 4 (contacts d)) ->
                infix ("<p>" ++ escape c ++ "</p>") out)
  /\ (forall s, In s (firstn 12 (skills d)) ->
                infix ("<li>" ++ escape s ++ "</li>") out)
  /\ (target_label <> "" ->
      infix ("<p class='target'>" ++ escape target_label ++ "</p>") out)
  /\ infix (with_dquotes "<div class=`summary`>" ++ escape (summary d)
            ++ "</div>") out
  /\ (forall item, In item (experience d) \/ In item (projects d) ->
        infix (with_dquotes "<div class=`title`>" ++ escape (title item)
               ++ "</div>") out
        /\ infix (with_dquotes "<div class=`meta`>" ++ escape (meta item)
                  ++ "</div>") out
        /\ (subtitle item <> "" ->
            infix ("<p class='sub'>" ++ escape (subtitle item) ++ "</p>")
                  out)
        /\ (forall b, In b (bullets item) ->
                      infix ("<li>" ++ escape b ++ "</li>") out))
  /\ (forall f, In f (firstn 4 (fit d)) ->
                infix ("<div class='fit'><strong>Fit</strong>" ++ escape f
                       ++ "</div>") out)
  /\ (forall v, all_chars not_markup (escape v) = true)
  /\ escape ("&<>'" ++ dquote) = "&amp;&lt;&gt;&#x27;&quot;"
  /\ (infix "<script>" (name d) -> infix "&lt;script&gt;" out)
  /\ ~ infix "<script>" out.
Proof.
  intros out. subst out.
  split; [unfold build_html; apply infix_slot; vm_compute; reflexivity |].
  split; [apply photo_src |].
  split; [unfold build_html; do 4 apply infix_app_r;
          apply infix_slot; vm_compute; reflexivity |].
  split; [unfold build_html; do 6 apply infix_app_r;
          apply infix_slot; vm_compute; reflexivity |].
  split; [unfold build_html; do 8 apply infix_app_r;
          apply infix_slot; vm_compute; reflexivity |].
  split.
  { intros c Hc. unfold build_html. do 11 apply infix_app_r.
    apply infix_app_l. unfold contact_list.
    apply (infix_concat_map (fun c => "<p>" ++ escape c ++ "</p>")), Hc. }
  split.
  { intros s Hs. unfold build_html. do 13 apply infix_app_r.
    apply infix_app_l. unfold _li.
    apply (infix_concat_map (fun x => "<li>" ++ escape x ++ "</li>")), Hs. }
  split.
  { intros Ht. unfold build_html. do 15 apply infix_app_r.
    apply infix_app_l. unfold headline_right.
    apply is_empty_false in Ht. rewrite Ht. apply infix_refl. }
  split; [unfold build_html; do 16 apply infix_app_r;
          apply infix_slot; vm_compute; reflexivity |].
  split.
  { intros item Hi.
    pose proof (items_in_document d profile_image target_label item Hi)
      as Hdoc.
    destruct (item_block_slots item) as (H1 & H2 & H3 & H4).
    split; [exact (infix_trans _ _ _ H1 Hdoc) |].
    split; [exact (infix_trans _ _ _ H2 Hdoc) |].
    split; [intros Hs; exact (infix_trans _ _ _ (H3 Hs) Hdoc) |].
    intros b Hb. exact (infix_trans _ _ _ (H4 b Hb) Hdoc). }
  split.
  { intros f Hf. unfold build_html. do 23 apply infix_app_r.
    apply infix_app_l. unfold fit_boxes.
    apply (infix_concat_map
             (fun point => "<div class='fit'><strong>Fit</strong>"
                           ++ escape point ++ "</div>")), Hf. }
  split; [apply escape_not_markup |].
  split; [reflexivity |].
  split.
  { intros Hn. apply escape_infix in Hn.
    change (escape "<script>") with "&lt;script&gt;" in Hn.
    apply (infix_trans _ _ _ Hn).
    unfold build_html. apply infix_app_r, infix_app_l, infix_refl. }
  apply clean_not_infix.
  apply clean_build_html; [reflexivity | |]; vm_compute; reflexivity.
Qed.
(** A name that holds a script element and a contact that holds [&]. *)
Lemma C2_witness :
  let d := mkData "<script>x</script>" "" ["a&b"]%list "" [] [] [] [] "" in
  infix "&lt;script&gt;" (build_html d "" "")
  /\ infix "<p>a&amp;b</p>" (build_html d "" "").
Proof.
  intros d.
  pose proof (C2_values_escaped d "" "") as H. cbv zeta in H.
  destruct H as (_ & _ & _ & _ & _ & Hc & _ & _ & _ & _ & _ & _ & _ & Hs & _).
  split.
  - apply Hs. exists "", "x</script>". reflexivity.
  - apply (Hc "a&b"). left. reflexivity.
Defined.
(* ================================================================== *)
(** * The section in force *)
(* ================================================================== *)

Local Open Scope list_scope.

Lemma firstn_S_nth {A : Type} (l : list A) (k : nat) (x : A) :
  nth_error l k = Some x -> firstn (S k) l = firstn k l ++ [x].
Proof.
  revert k; induction l as [|a l IH]; intros [|k] H; simpl in H;
    try discriminate.
  - inversion H; reflexivity.
  - rewrite !firstn_cons, (IH k H). reflexivity.
Qed.





(* ================================================================== *)
(** * C7: where the Items go *)
(* ================================================================== *)

Lemma section_not_item (s : string) :
  startswith s "## " = true -> startswith s "### " = false.
Proof.
  intros H. apply startswith_cons_inv in H as (r & -> & H).
  apply startswith_cons_inv in H as (r' & -> & H).
  unfold startswith; fold startswith.
  rewrite (startswith_clash r' "" " " " " "#" ltac:(discriminate) H).
  rewrite !andb_false_r. reflexivity.
Qed.

Lemma image_not_item (s : string) :
  is_image_line s = true -> startswith s "### " = false.
Proof.
  unfold is_image_line. intros H.
  apply andb_true_iff in H as [H _].
  apply andb_true_iff in H as [H _].
  eapply startswith_clash; [| exact H]. discriminate.
Qed.

Lemma bold_not_item (s : string) :
  startswith s "**" = true -> startswith s "### " = false.
Proof. apply startswith_clash. discriminate. Qed.

(** A turn at a [### ] line appends the Item of that line and moves to the
    end of its lines; a turn at another line leaves the two lists of Items
    alone and takes, besides the line, only the lines of a summary run. *)
Lemma step_turn (lines : list string) (st st' : State) (l : string) :
  step lines st st' ->
  nth_error lines (cur st) = Some l ->
  (item_heading l = true
   /\ data st' = route_item (current_section st)
                   (item_of (strip l) (skipn (cur st + 1) lines)) (data st)
   /\ cur st' = item_end lines (cur st))
  \/ (item_heading l = false
      /\ projects (data st') = projects (data st)
      /\ experience (data st') = experience (data st)
      /\ exists seg,
           span lines (cur st + 1) (cur st') seg
           /\ Forall (fun x => summary_line x = true) seg
           /\ (seg <> [] ->
               current_section st = "professional summary"
               /\ summary_line l = true)).
Proof.
  intros H Hl.
  assert (Hlen : cur st + 1 <= List.length lines).
  { assert (cur st < List.length lines)
      by (apply nth_error_Some; congruence).
    lia. }
  assert (Hone : forall d',
             item_heading l = false ->
             projects d' = projects (data st) ->
             experience d' = experience (data st) ->
             item_heading l = false
             /\ projects d' = projects (data st)
             /\ experience d' = experience (data st)
             /\ exists seg,
                  span lines (cur st + 1) (cur st + 1) seg
                  /\ Forall (fun x => summary_line x = true) seg
                  /\ (seg <> [] ->
                      current_section st = "professional summary"
                      /\ summary_line l = true)).
  { intros d' H1 H2 H3. split; [exact H1 |]. split; [exact H2 |].
    split; [exact H3 |]. exists [].
    split; [apply span_nil, Hlen |]. split; [constructor |].
    intros Hne; congruence. }
  unfold item_heading in *.
  step_inv H;
    match goal with
    | Hn : nth_error lines _ = Some ?x |- _ =>
        assert (x = l) by congruence; subst x
    end.
  - right. apply Hone; auto.
    match goal with
    | Hb : is_empty (strip l) = true |- _ =>
        apply is_empty_true in Hb; rewrite Hb; reflexivity
    end.
  - right. apply Hone; auto. apply image_not_item; assumption.
  - right. apply Hone; auto. apply name_not_item; assumption.
  - right. apply Hone; auto.
    match goal with
    | Hb : bold_only _ = true |- _ =>
        unfold bold_only in Hb; apply andb_true_iff in Hb as [Hb _];
        apply bold_not_item, Hb
    end.
  - right. apply Hone; auto. apply section_not_item; assumption.
  - left. split; [assumption |].
    match goal with
    | Hp : parse_item _ _ _ _ = Ok _ |- _ =>
        apply parse_item_span in Hp as [-> Hs];
        [| apply nth_error_Some; congruence]
    end.
    split; [reflexivity |].
    destruct Hs as (_ & E & _). unfold item_end. lia.
  - right. split; [assumption |]. split; [reflexivity |].
    split; [reflexivity |].
    exists (take_while summary_line (skipn (i + 1) lines)).
    split; [eapply collect_summary_span; eauto |].
    split; [apply take_while_Forall |].
    intros _. split; [reflexivity |].
    unfold summary_line, blank, section_heading.
    match goal with
    | H1 : is_empty (strip l) = false,
      H2 : startswith (strip l) "## " = false |- _ => rewrite H1, H2
    end.
    reflexivity.
  - right. apply Hone; auto.
  - right. apply Hone; auto.
  - right. apply Hone; auto.
Qed.


(* ================================================================== *)
(** * C5: the contacts *)
(* ================================================================== *)

Lemma contact_lines_app (u : bool) (a b : list string) :
  contact_lines u (a ++ b)
  = contact_lines u a ++ contact_lines (role_pending u a) b.
Proof.
  revert u; induction a as [|l a IH]; intros u; [reflexivity |].
  cbn [contact_lines role_pending app].
  destruct (is_empty (strip l) || is_image_line (strip l)); [apply IH |].
  destruct (bold_only (strip l) && u); [apply IH |].
  destruct (startswith (strip l) "#"); [apply IH |].
  rewrite IH. reflexivity.
Qed.

Lemma role_pending_app (u : bool) (a b : list string) :
  role_pending u (a ++ b) = role_pending (role_pending u a) b.
Proof.
  revert u; induction a as [|l a IH]; intros u; [reflexivity |].
  cbn [role_pending app].
  destruct (is_empty (strip l) || is_image_line (strip l)); [apply IH |].
  destruct (bold_only (strip l) && u); apply IH.
Qed.

Lemma name_is_hash (s : string) :
  startswith s "# " = true -> startswith s "#" = true.
Proof.
  intros H. apply startswith_cons_inv in H as (r & -> & _).
  destruct r; reflexivity.
Qed.

Lemma name_not_bold (s : string) :
  startswith s "# " = true -> bold_only s = false.
Proof.
  intros H. unfold bold_only.
  rewrite (startswith_clash s " " "*" "#" "*" ltac:(discriminate) H).
  reflexivity.
Qed.

(** A turn before the first heading, in terms of the contact rule. *)
Lemma step_contact_rule (lines : list string) (st st' : State)
  (l : string) :
  step lines st st' ->
  nth_error lines (cur st) = Some l ->
  not_heading23 l = true ->
  current_section st = "" ->
  contacts (data st')
  = fold_left add_entry
      (contact_lines (is_empty (role (data st))) [l]) (contacts (data st))
  /\ is_empty (role (data st'))
     = role_pending (is_empty (role (data st))) [l]
  /\ current_section st' = ""
  /\ cur st' = cur st + 1.
Proof.
  intros H Hl Hh Hsec.
  destruct (not_heading23_false _ Hh) as [H2 H3].
  unfold section_heading in H2. unfold item_heading in H3.
  cbn [contact_lines role_pending].
  step_inv H;
    match goal with
    | Hn : nth_error lines _ = Some ?x |- _ =>
        assert (x = l) by congruence; subst x
    end;
    try congruence;
    repeat match goal with
           | Hx : is_empty (strip l) = _ |- _ => rewrite Hx
           | Hx : is_image_line (strip l) = _ |- _ => rewrite Hx
           end;
    cbn [contact_lines role_pending fold_left orb andb negb].
  - auto.
  - auto.
  - match goal with
    | Hn : startswith (strip l) "# " = true |- _ =>
        rewrite (name_not_bold _ Hn), (name_is_hash _ Hn)
    end.
    cbn [andb fold_left]. auto.
  - match goal with
    | Hb : bold_only (strip l) = true, Hr : is_empty (role d) = true |- _ =>
        rewrite Hb, Hr
    end.
    cbn [andb fold_left]. auto.
  - exfalso.
    match goal with
    | Hc : contains _ "role alignment" = true |- _ =>
        rewrite Hsec in Hc; vm_compute in Hc; discriminate
    end.
  - match goal with
    | Hb : bold_only (strip l) && is_empty (role d) = false |- _ =>
        rewrite Hb
    end.
    rewrite Hsec. unfold add_contact. cbn [is_empty andb negb].
    match goal with
    | Hx : is_empty (strip l) = false |- _ => rewrite Hx
    end.
    destruct (startswith (strip l) "#"); cbn [negb andb fold_left];
      [auto |].
    unfold add_entry.
    destruct (mem (strip l) (contacts d));
      cbn [negb contacts append_contacts]; auto.
Qed.
(** ** After the first heading *)

Lemma item_end_heading (lines : list string) (j : nat) (x : string) :
  nth_error lines (item_end lines j) = Some x -> not_heading23 x = false.
Proof.
  unfold item_end. intros H.
  rewrite <- nth_error_skipn in H.
  rewrite (item_consumed_split (skipn (j + 1) lines)) in H at 1.
  rewrite nth_error_app2, Nat.sub_diag in H by lia.
  destruct (drop_while not_heading23
              (after_subtitle
                 (after_meta (drop_while blank (skipn (j + 1) lines)))))
    as [|h t] eqn:E; [discriminate |].
  simpl in H. inversion H; subst.
  eapply drop_while_head; eauto.
Qed.

(** Once a [## ] or [### ] line is reached, the contacts stay as they
    are: the section is not empty, or the cursor is at such a line. *)
Lemma step_keeps_contacts (lines : list string) (st st' : State) :
  step lines st st' ->
  (current_section st <> ""
   \/ forall l, nth_error lines (cur st) = Some l ->
                not_heading23 l = false) ->
  (current_section st' <> ""
   \/ forall l, nth_error lines (cur st') = Some l ->
                not_heading23 l = false)
  /\ contacts (data st') = contacts (data st).
Proof.
  intros H Q.
  destruct (step_visits _ _ _ H) as (l & _ & Hl & _ & _ & Esec).
  destruct Q as [Hsec | Hhead].
  - split.
    + left. rewrite Esec. destruct (section_heading l) eqn:E; auto.
      apply section_name_nonempty, E.
    + step_inv H; try reflexivity.
      rewrite add_contact_in_section by assumption. reflexivity.
  - pose proof (Hhead l Hl) as Hh. unfold not_heading23 in Hh.
    apply negb_false_iff, orb_true_iff in Hh as [Hh | Hh].
    + destruct (step_at_section _ _ _ _ H Hl Hh) as (_ & E2 & E3).
      split; [| rewrite E3; reflexivity].
      left. rewrite E2. apply section_name_nonempty, Hh.
    + destruct (step_turn _ _ _ _ H Hl) as [(_ & Hd & Hend) | (Hi & _)];
        [| congruence].
      split.
      * right. rewrite Hend. apply item_end_heading.
      * rewrite Hd. apply route_item_contacts.
Qed.

Lemma steps_keep_contacts (lines : list string) (st st' : State) :
  steps lines st st' ->
  (current_section st <> ""
   \/ forall l, nth_error lines (cur st) = Some l ->
                not_heading23 l = false) ->
  contacts (data st') = contacts (data st).
Proof.
  induction 1 as [|st st1 st2 H1 _ IH]; intros Q; [reflexivity |].
  destruct (step_keeps_contacts _ _ _ H1 Q) as [Q1 E].
  rewrite (IH Q1). exact E.
Qed.
(** ** Up to the first heading *)

(** The contacts are what the contact rule makes of the lines before the
    first [## ] or [### ] line. *)
Lemma contacts_fold (lines : list string) (st : State) :
  steps lines (init_state lines) st ->
  List.length lines <= cur st ->
  contacts (data st)
  = fold_left add_entry
      (contact_lines true (take_while not_heading23 lines)) [].
Proof.
  intros Hs Hend.
  set (pre := take_while not_heading23 lines).
  set (k0 := List.length pre).
  assert (Hsp : span lines 0 k0 pre).
  { apply (span_take_while lines 0 not_heading23). lia. }
  assert (Hpre : firstn k0 lines = pre).
  { rewrite (span_firstn _ _ _ _ Hsp). reflexivity. }
  set (P := fun st : State =>
              current_section st = ""
              /\ contacts (data st)
                 = fold_left add_entry
                     (contact_lines true (firstn (cur st) lines)) []
              /\ is_empty (role (data st))
                 = role_pending true (firstn (cur st) lines)).
  destruct (steps_reach lines P k0) with
    (st := init_state lines) (st_f := st)
    as (stk & Hk & (Hsec & Hc & _) & Hcur); auto.
  - clear st Hs Hend. intros st st' (Hsec & Hc & Hr) Hlt H.
    destruct (lt_nth_error lines (cur st)) as [l Hl].
    { apply span_le in Hsp. lia. }
    assert (Hh : not_heading23 l = true).
    { pose proof Hl as Hl'.
      rewrite (span_nth _ _ _ (cur st) _ Hsp) in Hl' by lia.
      apply nth_error_In in Hl'.
      pose proof (take_while_Forall not_heading23 lines) as Hall.
      rewrite Forall_forall in Hall. apply Hall, Hl'. }
    destruct (step_contact_rule _ _ _ _ H Hl Hh Hsec)
      as (E1 & E2 & E3 & E4).
    assert (Ef : firstn (cur st') lines = firstn (cur st) lines ++ [l]).
    { rewrite E4. replace (cur st + 1) with (S (cur st)) by lia.
      apply firstn_S_nth, Hl. }
    split; [| lia].
    split; [exact E3 |]. split.
    + rewrite E1, Ef, contact_lines_app, fold_left_app, <- Hc, <- Hr.
      reflexivity.
    + rewrite E2, Ef, role_pending_app, <- Hr. reflexivity.
  - split; [reflexivity |]. split; reflexivity.
  - simpl; lia.
  - apply span_le in Hsp. lia.
  - rewrite (steps_keep_contacts _ _ _ Hk).
    + rewrite Hc, Hcur, Hpre. reflexivity.
    + right. intros l Hl. rewrite Hcur in Hl.
      rewrite <- (Nat.add_0_r k0), <- nth_error_skipn in Hl.
      unfold k0, pre in Hl. rewrite skipn_take_while in Hl.
      destruct (drop_while not_heading23 lines) as [|h t] eqn:E;
        [discriminate |].
      simpl in Hl. inversion Hl; subst.
      eapply drop_while_head; eauto.
Qed.
(** ** Entries and repeats *)

Lemma mem_In (x : string) (l : list string) : mem x l = true <-> In x l.
Proof.
  unfold mem. rewrite existsb_exists. split.
  - intros (y & Hy & E). apply String.eqb_eq in E. subst. exact Hy.
  - intros H. exists x. split; [exact H | apply String.eqb_refl].
Qed.

Lemma mem_false (x : string) (l : list string) :
  mem x l = false <-> ~ In x l.
Proof.
  rewrite <- mem_In. destruct (mem x l); split; congruence.
Qed.

Lemma rstrip_by_idem (p : ascii -> bool) (s : string) :
  rstrip_by p (rstrip_by p s) = rstrip_by p s.
Proof.
  induction s as [|c r IH]; [reflexivity |].
  simpl. destruct (rstrip_by p r) as [|b r'] eqn:E.
  - destruct (p c) eqn:Ec; [reflexivity |].
    simpl. rewrite Ec. reflexivity.
  - simpl. simpl in IH. rewrite IH. reflexivity.
Qed.

(** When no line with a trailing backslash repeats an earlier entry, the
    membership test of line 117 is the test on the entry itself. *)
Lemma fold_add_entry_fresh (cands a acc : list string) :
  (forall e, In e acc <-> In e (map (rstrip_char "\") a)) ->
  (forall a' s b,
      cands = a' ++ s :: b -> rstrip_char "\" s <> s ->
      ~ In (rstrip_char "\" s) (map (rstrip_char "\") (a ++ a'))) ->
  fold_left add_entry cands acc
  = fold_left (fun acc e => if mem e acc then acc else acc ++ [e])
              (map (rstrip_char "\") cands) acc.
Proof.
  revert a acc; induction cands as [|s cands IH]; intros a acc Hacc Hfresh;
    [reflexivity |].
  cbn [fold_left map].
  assert (Em : mem s acc = mem (rstrip_char "\" s) acc).
  { destruct (string_dec (rstrip_char "\" s) s) as [E | E];
      [rewrite E; reflexivity |].
    assert (H1 : mem (rstrip_char "\" s) acc = false).
    { apply mem_false. intros Hin. apply Hacc in Hin.
      apply (Hfresh [] s cands eq_refl E).
      rewrite app_nil_r. exact Hin. }
    assert (H2 : mem s acc = false).
    { apply mem_false. intros Hin. apply Hacc in Hin.
      apply in_map_iff in Hin as (x & Ex & _).
      apply E. rewrite <- Ex. unfold rstrip_char.
      apply rstrip_by_idem. }
    rewrite H1, H2. reflexivity. }
  unfold add_entry at 2. rewrite Em.
  apply (IH (a ++ [s])).
  - intros e. rewrite map_app, in_app_iff. simpl.
    destruct (mem (rstrip_char "\" s) acc) eqn:E1.
    + rewrite Hacc. apply mem_In in E1. apply Hacc in E1.
      split; [tauto |]. intros [H | [<- | []]]; auto.
    + rewrite in_app_iff, Hacc. simpl. tauto.
  - intros a' s' b E Hs'.
    rewrite <- app_assoc. simpl.
    apply (Hfresh (s :: a') s' b); [rewrite E; reflexivity | exact Hs'].
Qed.

Lemma first_occurrences_NoDup_from (l acc : list string) :
  NoDup acc ->
  NoDup (fold_left (fun acc e => if mem e acc then acc else acc ++ [e])
                   l acc).
Proof.
  revert acc; induction l as [|e l IH]; intros acc H; [exact H |].
  cbn [fold_left]. apply IH.
  destruct (mem e acc) eqn:E; [exact H |].
  apply mem_false in E.
  apply NoDup_rev in H. rewrite <- (rev_involutive (acc ++ [e])).
  apply NoDup_rev. rewrite rev_app_distr. simpl.
  constructor; [| exact H].
  intros Hin. apply E. apply in_rev. exact Hin.
Qed.

Lemma first_occurrences_NoDup (l : list string) :
  NoDup (first_occurrences l).
Proof. apply first_occurrences_NoDup_from. constructor. Qed.

Lemma first_occurrences_In_from (l acc : list string) (e : string) :
  In e (fold_left (fun acc e => if mem e acc then acc else acc ++ [e])
                  l acc)
  <-> In e acc \/ In e l.
Proof.
  revert acc; induction l as [|x l IH]; intros acc; [simpl; tauto |].
  cbn [fold_left]. rewrite IH.
  destruct (mem x acc) eqn:E.
  - apply mem_In in E. simpl. split; [tauto |].
    intros [H | [<- | H]]; auto.
  - rewrite in_app_iff. simpl. tauto.
Qed.

(** [first_occurrences] keeps every entry. *)
Lemma first_occurrences_In (l : list string) (e : string) :
  In e (first_occurrences l) <-> In e l.
Proof.
  unfold first_occurrences. rewrite first_occurrences_In_from.
  simpl. tauto.
Qed.
(** C5, as amended.  Of the lines before the first [## ] or [### ] line,
    take the stripped ones that are not blank, are not image lines, are
    not read as the role and do not begin with [#].  When none of them
    with a trailing backslash repeats an earlier entry, the contacts are
    these lines without their trailing backslashes, in the order of the
    document, each at its first place, and no string occurs twice. *)
Theorem C5_contacts (md_text : string) :
  exists d : Data,
    parse_markdown md_text = Ok d
    /\ (backslash_lines_fresh
          (contact_lines true
             (take_while not_heading23 (splitlines md_text))) ->
        contacts d
        = first_occurrences
            (map (rstrip_char "\")
               (contact_lines true
                  (take_while not_heading23 (splitlines md_text))))
        /\ NoDup (contacts d)).
Proof.
  unfold parse_markdown.
  destruct (parse_lines_steps (splitlines md_text)) as (st & Hp & Hs & Hn).
  exists (data st). split; [exact Hp |].
  intros Hfresh.
  assert (E : contacts (data st)
              = first_occurrences
                  (map (rstrip_char "\")
                     (contact_lines true
                        (take_while not_heading23 (splitlines md_text))))).
  { rewrite (contacts_fold _ _ Hs Hn). unfold first_occurrences.
    apply (fold_add_entry_fresh _ [] []).
    - intros e. simpl. tauto.
    - intros a' s b Ec Hne. simpl. eapply Hfresh; eauto. }
  split; [exact E |]. rewrite E. apply first_occurrences_NoDup.
Qed.

(** Two contact lines after the name and the role, the first with a
    trailing backslash, the second given twice. *)
Lemma C5_witness :
  exists d : Data,
    parse_markdown ("# Jane Doe" ++ nl ++ "**iOS Engineer**" ++ nl
                    ++ "jane@x.org\" ++ nl ++ "+1 555" ++ nl ++ "+1 555"
                    ++ nl ++ "## Core Skills" ++ nl ++ "- Swift")%string
    = Ok d
    /\ contacts d = ["jane@x.org"; "+1 555"].
Proof.
  destruct (C5_contacts
              ("# Jane Doe" ++ nl ++ "**iOS Engineer**" ++ nl
               ++ "jane@x.org\" ++ nl ++ "+1 555" ++ nl ++ "+1 555"
               ++ nl ++ "## Core Skills" ++ nl ++ "- Swift")%string)
    as (d & Hd & H).
  exists d. split; [exact Hd |].
  destruct H as [E _]; [| rewrite E; reflexivity].
  intros a s b Ec Hs Hin. vm_compute in Ec.
  destruct a as [|x [|y [|z a]]]; simpl in Ec; inversion Ec; subst.
  - destruct Hin.
  - apply Hs. reflexivity.
  - apply Hs. reflexivity.
  - destruct a; discriminate.
Defined.

(** C5 as stated fails: the bold line read as the role and an image line
    are no contacts, every trailing backslash of a line is removed, and
    the lines of an Item before the first [## ] line are no contacts. *)
Lemma C5_counterexample :
  (let md_text := ("# Jane Doe" ++ nl ++ "**Lead**" ++ nl ++ "![me](me.png)"
                   ++ nl ++ "mail@x.org")%string in
   claimed_contacts (splitlines md_text)
   = ["**Lead**"; "![me](me.png)"; "mail@x.org"]
   /\ exists d, parse_markdown md_text = Ok d
                /\ contacts d = ["mail@x.org"])
  /\ (let md_text := "mail@x.org\\" in
      claimed_contacts (splitlines md_text) = ["mail@x.org\"]
      /\ exists d, parse_markdown md_text = Ok d
                   /\ contacts d = ["mail@x.org"])
  /\ (let md_text := ("### Engineer" ++ nl ++ "- built it" ++ nl
                      ++ "mail@x.org")%string in
      claimed_contacts (splitlines md_text) = ["- built it"; "mail@x.org"]
      /\ exists d, parse_markdown md_text = Ok d /\ contacts d = []).
Proof.
  split; [| split].
  - split; [reflexivity |]. eexists; split; reflexivity.
  - split; [reflexivity |]. eexists; split; reflexivity.
  - split; [reflexivity |]. eexists; split; reflexivity.
Qed.
(* ================================================================== *)
(** * C3: the summary *)
(* ================================================================== *)






(* ================================================================== *)
(** * Counting the markup of the document *)
(* ================================================================== *)

Local Open Scope string_scope.

Lemma occurs_eq (p a : string) (n m : nat) :
  occurs p a n -> n = m -> occurs p a m.
Proof. intros H <-. exact H. Qed.

Lemma occurs_app (p a b : string) (n m : nat) :
  p <> "" -> occurs p a n -> occurs p b m -> occurs p (a ++ b) (n + m).
Proof.
  intros Hp [Ca Na] [Cb Nb]. split.
  - rewrite count_sub_app by auto. lia.
  - apply no_partial_app; auto.
Qed.

Lemma occurs_clean (p a : string) : clean p a -> occurs p a 0.
Proof. intros H; exact H. Qed.

Lemma occurs_const (p c : string) :
  no_partial_b p c = true -> occurs p c (count_sub c p).
Proof. intros H. split; [reflexivity | apply no_partial_b_sound, H]. Qed.

Lemma occurs_concat_map (p : string) (f : string -> string) (n : nat)
  (l : list string) :
  p <> "" -> (forall x, occurs p (f x) n) ->
  occurs p (String.concat "" (map f l)) (n * List.length l).
Proof.
  intros Hp Hf. induction l as [|x l IH].
  - rewrite Nat.mul_0_r. apply occurs_clean, clean_empty, Hp.
  - cbn [map]. rewrite concat_empty_cons.
    eapply occurs_eq; [apply occurs_app; [exact Hp | apply Hf | exact IH] |].
    cbn [List.length]. lia.
Qed.

Lemma occurs_join_map (p sep : string) (f : Item -> string)
  (h : Item -> nat) (l : list Item) :
  p <> "" -> clean p sep -> (forall x, occurs p (f x) (h x)) ->
  occurs p (join sep (map f l)) (list_sum (map h l)).
Proof.
  intros Hp Hsep Hf. unfold join. induction l as [|x l IH].
  - apply occurs_clean, clean_empty, Hp.
  - destruct l as [|y l].
    + cbn [map list_sum fold_right]. rewrite Nat.add_0_r. apply Hf.
    + change (String.concat sep (map f (x :: y :: l)))
        with (f x ++ sep ++ String.concat sep (map f (y :: l))).
      eapply occurs_eq.
      * apply occurs_app; [exact Hp | apply Hf |].
        apply occurs_app; [exact Hp | apply occurs_clean, Hsep | exact IH].
      * cbn [map list_sum fold_right]. lia.
Qed.
Section Count.

(** A text [p] that begins with [<], of which no literal text of the
    document ends with a beginning. *)
Variable p : string.
Hypothesis p_tag : startswith p "<" = true.
Hypothesis p_blocks : forallb (no_partial_b p) block_pieces = true.
Hypothesis p_document : forallb (no_partial_b p) document_pieces = true.

Lemma occurs_block (x : string) :
  In x block_pieces -> occurs p x (count_sub x p).
Proof.
  intros H. apply occurs_const.
  exact (proj1 (forallb_forall _ _) p_blocks x H).
Qed.

Lemma occurs_piece (x : string) :
  In x document_pieces -> occurs p x (count_sub x p).
Proof.
  intros H. apply occurs_const.
  exact (proj1 (forallb_forall _ _) p_document x H).
Qed.

Lemma occurs_escape (v : string) : occurs p (escape v) 0.
Proof. apply occurs_clean, clean_escape, p_tag. Qed.

Lemma occurs_wrapped (a v b : string) :
  In a block_pieces -> In b block_pieces ->
  occurs p (a ++ escape v ++ b) (wrapped_count p a b).
Proof.
  intros Ha Hb. pose proof (p_nonempty p p_tag) as Hp.
  eapply occurs_eq.
  - apply occurs_app; [exact Hp | apply occurs_block, Ha |].
    apply occurs_app; [exact Hp | apply occurs_escape |].
    apply occurs_block, Hb.
  - unfold wrapped_count. lia.
Qed.

Lemma occurs_li (l : list string) :
  occurs p (_li l) (wrapped_count p "<li>" "</li>" * List.length l).
Proof.
  unfold _li. apply occurs_concat_map; [apply p_nonempty, p_tag |].
  intros x. apply occurs_wrapped; simpl; tauto.
Qed.

Lemma occurs_contact_list (d : Data) :
  occurs p (contact_list d)
         (wrapped_count p "<p>" "</p>"
          * List.length (firstn 4 (contacts d))).
Proof.
  unfold contact_list. apply occurs_concat_map; [apply p_nonempty, p_tag |].
  intros x. apply occurs_wrapped; simpl; tauto.
Qed.

Lemma occurs_fit_boxes (d : Data) :
  occurs p (fit_boxes d)
         (wrapped_count p "<div class='fit'><strong>Fit</strong>" "</div>"
          * List.length (firstn 4 (fit d))).
Proof.
  unfold fit_boxes. apply occurs_concat_map; [apply p_nonempty, p_tag |].
  intros x. apply occurs_wrapped; simpl; tauto.
Qed.

Lemma occurs_headline_right (t : string) :
  occurs p (headline_right t)
         (if is_empty t then 0
          else wrapped_count p "<p class='target'>" "</p>").
Proof.
  unfold headline_right. destruct (is_empty t); cbn [negb].
  - apply occurs_clean, clean_empty, p_nonempty, p_tag.
  - apply occurs_wrapped; simpl; tauto.
Qed.

Lemma occurs_item_block (item : Item) :
  occurs p (item_block item) (block_count p item).
Proof.
  pose proof (p_nonempty p p_tag) as Hp.
  unfold item_block, block_count.
  eapply occurs_eq.
  - apply occurs_app; [exact Hp | apply occurs_block; simpl; tauto |].
    apply occurs_app; [exact Hp | apply occurs_escape |].
    apply occurs_app; [exact Hp | apply occurs_block; simpl; tauto |].
    apply occurs_app; [exact Hp | apply occurs_escape |].
    apply occurs_app; [exact Hp | apply occurs_block; simpl; tauto |].
    apply occurs_app; [exact Hp | |].
    { instantiate (1 := if is_empty (subtitle item) then 0
                        else wrapped_count p "<p class='sub'>" "</p>").
      destruct (is_empty (subtitle item)); cbn [negb].
      - apply occurs_clean, clean_empty, Hp.
      - apply occurs_wrapped; simpl; tauto. }
    apply occurs_app; [exact Hp | apply occurs_block; simpl; tauto |].
    apply occurs_app; [exact Hp | apply occurs_li |].
    apply occurs_block; simpl; tauto.
  - lia.
Qed.

Lemma clean_nl : clean p nl.
Proof.
  destruct (startswith_cons_inv _ _ _ p_tag) as (r & E & _).
  rewrite E. apply clean_first_char. reflexivity.
Qed.

Lemma occurs_items (l : list Item) :
  occurs p (_items l) (list_sum (map (block_count p) l)).
Proof.
  unfold _items.
  apply occurs_join_map;
    [apply p_nonempty, p_tag | apply clean_nl | apply occurs_item_block].
Qed.

(** The number of times [p] occurs in the document is its number in the
    literal text: the values add none. *)
Lemma count_sub_build_html (d : Data) (profile_image target_label : string) :
  count_sub (build_html d profile_image target_label) p
  = document_count p d target_label.
Proof.
  pose proof (p_nonempty p p_tag) as Hp.
  assert (H : occurs p (build_html d profile_image target_label)
                (document_count p d target_label)); [| exact (proj1 H)].
  unfold build_html, document_count.
  eapply occurs_eq.
  - apply occurs_app; [exact Hp | apply occurs_piece; simpl; tauto |].
    apply occurs_app; [exact Hp | apply occurs_escape |].
    apply occurs_app; [exact Hp | apply occurs_piece; simpl; tauto |].
    apply occurs_app; [exact Hp | apply occurs_escape |].
    apply occurs_app; [exact Hp | apply occurs_piece; simpl; tauto |].
    apply occurs_app; [exact Hp | apply occurs_escape |].
    apply occurs_app; [exact Hp | apply occurs_piece; simpl; tauto |].
    apply occurs_app; [exact Hp | apply occurs_escape |].
    apply occurs_app; [exact Hp | apply occurs_piece; simpl; tauto |].
    apply occurs_app; [exact Hp | apply occurs_escape |].
    apply occurs_app; [exact Hp | apply occurs_piece; simpl; tauto |].
    apply occurs_app; [exact Hp | apply occurs_contact_list |].
    apply occurs_app; [exact Hp | apply occurs_piece; simpl; tauto |].
    apply occurs_app; [exact Hp | apply occurs_li |].
    apply occurs_app; [exact Hp | apply occurs_piece; simpl; tauto |].
    apply occurs_app; [exact Hp | apply occurs_headline_right |].
    apply occurs_app; [exact Hp | apply occurs_piece; simpl; tauto |].
    apply occurs_app; [exact Hp | apply occurs_escape |].
    apply occurs_app; [exact Hp | apply occurs_piece; simpl; tauto |].
    apply occurs_app; [exact Hp | apply occurs_items |].
    apply occurs_app; [exact Hp | apply occurs_piece; simpl; tauto |].
    apply occurs_app; [exact Hp | apply occurs_items |].
    apply occurs_app; [exact Hp | apply occurs_piece; simpl; tauto |].
    apply occurs_app; [exact Hp | apply occurs_fit_boxes |].
    apply occurs_piece; simpl; tauto.
  - unfold document_pieces. cbn [map list_sum fold_right]. lia.
Qed.

End Count.
(** The counts of a closed text in the literal text, evaluated. *)
Ltac eval_counts :=
  repeat match goal with
         | |- context [wrapped_count ?q ?a ?b] =>
             let t := constr:(wrapped_count q a b) in
             let v := eval vm_compute in t in
             replace t with v by (vm_compute; reflexivity)
         | |- context [count_sub ?c ?q] =>
             let t := constr:(count_sub c q) in
             let v := eval vm_compute in t in
             replace t with v by (vm_compute; reflexivity)
         | |- context [list_sum (map (fun c => count_sub c ?q)
                                     document_pieces)] =>
             let t := constr:(list_sum (map (fun c => count_sub c q)
                                            document_pieces)) in
             let v := eval vm_compute in t in
             replace t with v by (vm_compute; reflexivity)
         end.

Lemma list_sum_map_zero {A : Type} (f : A -> nat) (l : list A) :
  (forall x, f x = 0) -> list_sum (map f l) = 0.
Proof.
  intros H. induction l as [|x l IH]; [reflexivity |].
  cbn [map list_sum fold_right]. fold (list_sum (map f l)).
  rewrite H, IH. reflexivity.
Qed.

(** X1.  The document shows the first four entries of [fit] and no more:
    it holds as many fit boxes as [fit] has entries, four at most,
    whatever the entries and the other values hold. *)
Theorem X1_fit_boxes_at_most_four (d : Data)
  (profile_image target_label : string) :
  count_sub (build_html d profile_image target_label) "<div class='fit'>"
  = Nat.min 4 (List.length (fit d)).
Proof.
  rewrite (count_sub_build_html "<div class='fit'>" eq_refl)
    by (vm_compute; reflexivity).
  unfold document_count.
  rewrite !(list_sum_map_zero (block_count "<div class='fit'>")).
  - eval_counts. rewrite !length_firstn.
    destruct (is_empty target_label); lia.
  - intros item. unfold block_count. eval_counts.
    destruct (is_empty (subtitle item)); lia.
  - intros item. unfold block_count. eval_counts.
    destruct (is_empty (subtitle item)); lia.
Qed.
Lemma list_sum_app_map {A : Type} (f : A -> nat) (l1 l2 : list A) :
  list_sum (map f (l1 ++ l2)%list)
  = list_sum (map f l1) + list_sum (map f l2).
Proof. rewrite map_app. apply list_sum_app. Qed.

Lemma list_sum_map_ext {A : Type} (f g : A -> nat) (l : list A) :
  (forall x, f x = g x) -> list_sum (map f l) = list_sum (map g l).
Proof.
  intros H. f_equal. apply map_ext, H.
Qed.

(** X2.  The sidebar shows the first four contacts and the first twelve
    skills: the document holds one [<p>] element for each of the first
    four contacts and no other, and one [<li>] element for each of the
    first twelve skills and for each bullet of each Item. *)
Theorem X2_sidebar_lists_truncated (d : Data)
  (profile_image target_label : string) :
  count_sub (build_html d profile_image target_label) "<p>"
  = Nat.min 4 (List.length (contacts d))
  /\ count_sub (build_html d profile_image target_label) "<li>"
     = Nat.min 12 (List.length (skills d))
       + list_sum (map (fun item => List.length (bullets item))
                       (experience d ++ projects d)%list).
Proof.
  split.
  - rewrite (count_sub_build_html "<p>" eq_refl)
      by (vm_compute; reflexivity).
    unfold document_count.
    rewrite !(list_sum_map_zero (block_count "<p>")).
    + eval_counts. rewrite !length_firstn.
      destruct (is_empty target_label); lia.
    + intros item. unfold block_count. eval_counts.
      destruct (is_empty (subtitle item)); lia.
    + intros item. unfold block_count. eval_counts.
      destruct (is_empty (subtitle item)); lia.
  - rewrite (count_sub_build_html "<li>" eq_refl)
      by (vm_compute; reflexivity).
    unfold document_count.
    rewrite list_sum_app_map.
    rewrite !(list_sum_map_ext (block_count "<li>")
                (fun item => List.length (bullets item))).
    + eval_counts. rewrite !length_firstn.
      destruct (is_empty target_label); lia.
    + intros item. unfold block_count. eval_counts.
      destruct (is_empty (subtitle item)); lia.
    + intros item. unfold block_count. eval_counts.
      destruct (is_empty (subtitle item)); lia.
Qed.

Lemma list_sum_map_one {A : Type} (l : list A) :
  list_sum (map (fun _ => 1) l) = List.length l.
Proof.
  induction l as [|x l IH]; [reflexivity |].
  cbn [map list_sum fold_right List.length].
  fold (list_sum (map (fun _ : A => 1) l)). rewrite IH. reflexivity.
Qed.

Lemma list_sum_map_filter {A : Type} (q : A -> bool) (l : list A) :
  list_sum (map (fun x => if q x then 1 else 0) l)
  = List.length (filter q l).
Proof.
  induction l as [|x l IH]; [reflexivity |].
  cbn [map list_sum fold_right filter].
  fold (list_sum (map (fun x => if q x then 1 else 0) l)). rewrite IH.
  destruct (q x); reflexivity.
Qed.

(** X3.  The document holds one block for each Item of [experience] and
    of [projects], and in these blocks one subtitle paragraph for each
    Item whose subtitle is not empty. *)
Theorem X3_one_block_per_item (d : Data)
  (profile_image target_label : string) :
  count_sub (build_html d profile_image target_label)
            (with_dquotes "<div class=`item`>")
  = List.length (experience d) + List.length (projects d)
  /\ count_sub (build_html d profile_image target_label) "<p class='sub'>"
     = List.length
         (filter (fun item => negb (is_empty (subtitle item)))
                 (experience d ++ projects d)%list).
Proof.
  split.
  - rewrite (count_sub_build_html (with_dquotes "<div class=`item`>")
               eq_refl)
      by (vm_compute; reflexivity).
    unfold document_count.
    rewrite !(list_sum_map_ext
                (block_count (with_dquotes "<div class=`item`>"))
                (fun _ => 1)).
    + rewrite !list_sum_map_one. eval_counts.
      destruct (is_empty target_label); lia.
    + intros item. unfold block_count. eval_counts.
      destruct (is_empty (subtitle item)); lia.
    + intros item. unfold block_count. eval_counts.
      destruct (is_empty (subtitle item)); lia.
  - rewrite (count_sub_build_html "<p class='sub'>" eq_refl)
      by (vm_compute; reflexivity).
    unfold document_count.
    rewrite <- list_sum_map_filter, list_sum_app_map.
    rewrite !(list_sum_map_ext
                (block_count "<p class='sub'>")
                (fun item => if negb (is_empty (subtitle item))
                             then 1 else 0)).
    + eval_counts. destruct (is_empty target_label); lia.
    + intros item. unfold block_count. eval_counts.
      destruct (is_empty (subtitle item)); cbn [negb]; lia.
    + intros item. unfold block_count. eval_counts.
      destruct (is_empty (subtitle item)); cbn [negb]; lia.
Qed.

(** X4.  The label paragraph of the headline is there exactly when the
    label is not empty. *)
Theorem X4_target_label_optional (d : Data)
  (profile_image target_label : string) :
  count_sub (build_html d profile_image target_label) "<p class='target'>"
  = (if is_empty target_label then 0 else 1).
Proof.
  rewrite (count_sub_build_html "<p class='target'>" eq_refl)
    by (vm_compute; reflexivity).
  unfold document_count.
  rewrite !(list_sum_map_zero (block_count "<p class='target'>")).
  - eval_counts. destruct (is_empty target_label); lia.
  - intros item. unfold block_count. eval_counts.
    destruct (is_empty (subtitle item)); lia.
  - intros item. unfold block_count. eval_counts.
    destruct (is_empty (subtitle item)); lia.
Qed.
Lemma drop_append (a b : string) (k : nat) :
  drop (String.length a + k) (a ++ b) = drop k b.
Proof. induction a as [|c a IH]; simpl; auto. Qed.

Lemma endswith_app (a b p : string) :
  endswith b p = true -> endswith (a ++ b) p = true.
Proof.
  unfold endswith. intros H. apply andb_true_iff in H as [H1 H2].
  apply Nat.leb_le in H1. rewrite length_append.
  apply andb_true_iff. split; [apply Nat.leb_le; lia |].
  replace (String.length a + String.length b - String.length p)
    with (String.length a + (String.length b - String.length p)) by lia.
  rewrite drop_append. exact H2.
Qed.

Lemma startswith_app_l (a b p : string) :
  startswith a p = true -> startswith (a ++ b) p = true.
Proof.
  intros H. apply startswith_true_iff in H as (r & ->).
  rewrite append_assoc. apply startswith_app.
Qed.

(** X5.  Whatever the record, the image and the label hold, the document
    is a complete one that stands alone: it begins with the doctype and
    ends with the closing [html] tag, holds one [style] element, one
    [body], one [img], and no [link] and no [script] element. *)
Theorem X5_standalone_document (d : Data)
  (profile_image target_label : string) :
  startswith (build_html d profile_image target_label) "<!doctype html>"
  = true
  /\ endswith (build_html d profile_image target_label) "</html>" = true
  /\ count_sub (build_html d profile_image target_label) "<style>" = 1
  /\ count_sub (build_html d profile_image target_label) "<body>" = 1
  /\ count_sub (build_html d profile_image target_label) "<img" = 1
  /\ count_sub (build_html d profile_image target_label) "<link" = 0
  /\ count_sub (build_html d profile_image target_label) "<script" = 0.
Proof.
  split.
  { unfold build_html. apply startswith_app_l. vm_compute. reflexivity. }
  split.
  { unfold build_html. do 24 apply endswith_app. vm_compute. reflexivity. }
  repeat split.
  - rewrite (count_sub_build_html "<style>" eq_refl)
      by (vm_compute; reflexivity).
    unfold document_count.
    rewrite !(list_sum_map_zero (block_count "<style>"));
      try (intros item; unfold block_count; eval_counts;
           destruct (is_empty (subtitle item)); lia).
    eval_counts. destruct (is_empty target_label); lia.
  - rewrite (count_sub_build_html "<body>" eq_refl)
      by (vm_compute; reflexivity).
    unfold document_count.
    rewrite !(list_sum_map_zero (block_count "<body>"));
      try (intros item; unfold block_count; eval_counts;
           destruct (is_empty (subtitle item)); lia).
    eval_counts. destruct (is_empty target_label); lia.
  - rewrite (count_sub_build_html "<img" eq_refl)
      by (vm_compute; reflexivity).
    unfold document_count.
    rewrite !(list_sum_map_zero (block_count "<img"));
      try (intros item; unfold block_count; eval_counts;
           destruct (is_empty (subtitle item)); lia).
    eval_counts. destruct (is_empty target_label); lia.
  - rewrite (count_sub_build_html "<link" eq_refl)
      by (vm_compute; reflexivity).
    unfold document_count.
    rewrite !(list_sum_map_zero (block_count "<link"));
      try (intros item; unfold block_count; eval_counts;
           destruct (is_empty (subtitle item)); lia).
    eval_counts. destruct (is_empty target_label); lia.
  - rewrite (count_sub_build_html "<script" eq_refl)
      by (vm_compute; reflexivity).
    unfold document_count.
    rewrite !(list_sum_map_zero (block_count "<script"));
      try (intros item; unfold block_count; eval_counts;
           destruct (is_empty (subtitle item)); lia).
    eval_counts. destruct (is_empty target_label); lia.
Qed.
Lemma escape_nonempty (s : string) : s <> "" -> escape s <> "".
Proof.
  destruct s as [|c s]; [congruence |]. intros _.
  unfold escape; fold escape. unfold escape_char.
  destruct (Ascii.eqb c "&"); [discriminate |].
  destruct (Ascii.eqb c "<"); [discriminate |].
  destruct (Ascii.eqb c ">"); [discriminate |].
  destruct (Ascii.eqb c (ascii_of_nat 34)); [discriminate |].
  destruct (Ascii.eqb c "'"); discriminate.
Qed.

Lemma one_img (d : Data) (profile_image target_label : string) :
  count_sub (build_html d profile_image target_label) "<img" = 1.
Proof.
  rewrite (count_sub_build_html "<img" eq_refl)
    by (vm_compute; reflexivity).
  unfold document_count.
  rewrite !(list_sum_map_zero (block_count "<img"));
    try (intros item; unfold block_count; eval_counts;
         destruct (is_empty (subtitle item)); lia).
  eval_counts. destruct (is_empty target_label); lia.
Qed.

(** X6.  In the document that [main] writes, the one [img] element has as
    its [src] the image of the option when the option is given and not
    empty, else the image of the text when the text gives one, else the
    placeholder; the [src] is never empty. *)
Theorem X6_profile_image_precedence (md_text : string)
  (arg : option string) (target_label : string) :
  exists (d : Data) (out image : string),
    parse_markdown md_text = Ok d
    /\ main_html md_text arg target_label = Ok out
    /\ image = match arg with
               | Some (String c a) => String c a
               | _ => match image_from_md d with
                      | String c m => String c m
                      | EmptyString => placeholder_image
                      end
               end
    /\ escape image <> ""
    /\ infix (photo_src_open ++ escape image ++ tpl_img_alt) out
    /\ count_sub out "<img" = 1.
Proof.
  destruct (main_html_Ok md_text arg target_label) as (d & Hd & Hm).
  exists d, (build_html d (choose_profile_image arg d) target_label),
    (choose_profile_image arg d).
  split; [exact Hd |]. split; [exact Hm |].
  split; [apply choose_profile_image_cases |].
  split.
  - apply escape_nonempty. rewrite choose_profile_image_cases.
    destruct arg as [[|c a]|]; try discriminate;
      destruct (image_from_md d); discriminate.
  - split; [apply photo_src |].
    apply one_img.
Qed.
